(** * wolfEngine digest adapter (src/digest.c)

    A shallow embedding of the EVP message-digest adapter of wolfEngine:
    the generic dispatch path (WE_USE_HASH) over wolfCrypt's [wc_Hash*]
    layer, the fixed-function SHA-256 path (WE_SHA256_DIRECT) over the
    [wc_Sha256*] primitives, and the construction of the global EVP_MD
    method descriptors.

    wolfCrypt and OpenSSL are external, trusted libraries.  wolfCrypt is
    modelled as one primitive family per hash type (its [wc_Hash*] entry
    points dispatch on the type tag to the family, as wolfCrypt's hash.c
    does); the OpenSSL [EVP_MD_meth_*] calls are modelled with a success
    oracle and an explicit heap of method records. *)

From Stdlib Require Import ZArith List Bool Lia.
Import ListNotations.
Open Scope Z_scope.

Definition byte := Byte.byte.

(** ** wolfCrypt hash types and digest sizes *)

Inductive wc_HashType :=
| WC_HASH_TYPE_SHA256
| WC_HASH_TYPE_SHA384
| WC_HASH_TYPE_SHA512
| WC_HASH_TYPE_SHA3_224
| WC_HASH_TYPE_SHA3_256
| WC_HASH_TYPE_SHA3_384
| WC_HASH_TYPE_SHA3_512.

Definition wc_HashType_eqb (a b : wc_HashType) : bool :=
  match a, b with
  | WC_HASH_TYPE_SHA256, WC_HASH_TYPE_SHA256
  | WC_HASH_TYPE_SHA384, WC_HASH_TYPE_SHA384
  | WC_HASH_TYPE_SHA512, WC_HASH_TYPE_SHA512
  | WC_HASH_TYPE_SHA3_224, WC_HASH_TYPE_SHA3_224
  | WC_HASH_TYPE_SHA3_256, WC_HASH_TYPE_SHA3_256
  | WC_HASH_TYPE_SHA3_384, WC_HASH_TYPE_SHA3_384
  | WC_HASH_TYPE_SHA3_512, WC_HASH_TYPE_SHA3_512 => true
  | _, _ => false
  end.

Definition all_hash_types : list wc_HashType :=
  [WC_HASH_TYPE_SHA256; WC_HASH_TYPE_SHA384; WC_HASH_TYPE_SHA512;
   WC_HASH_TYPE_SHA3_224; WC_HASH_TYPE_SHA3_256; WC_HASH_TYPE_SHA3_384;
   WC_HASH_TYPE_SHA3_512].

Definition WC_SHA256_DIGEST_SIZE : Z := 32.
Definition WC_SHA384_DIGEST_SIZE : Z := 48.
Definition WC_SHA512_DIGEST_SIZE : Z := 64.
Definition WC_SHA3_224_DIGEST_SIZE : Z := 28.
Definition WC_SHA3_256_DIGEST_SIZE : Z := 32.
Definition WC_SHA3_384_DIGEST_SIZE : Z := 48.
Definition WC_SHA3_512_DIGEST_SIZE : Z := 64.

(** wolfCrypt's [wc_HashGetDigestSize]. *)
Definition wc_HashGetDigestSize (t : wc_HashType) : Z :=
  match t with
  | WC_HASH_TYPE_SHA256 => WC_SHA256_DIGEST_SIZE
  | WC_HASH_TYPE_SHA384 => WC_SHA384_DIGEST_SIZE
  | WC_HASH_TYPE_SHA512 => WC_SHA512_DIGEST_SIZE
  | WC_HASH_TYPE_SHA3_224 => WC_SHA3_224_DIGEST_SIZE
  | WC_HASH_TYPE_SHA3_256 => WC_SHA3_256_DIGEST_SIZE
  | WC_HASH_TYPE_SHA3_384 => WC_SHA3_384_DIGEST_SIZE
  | WC_HASH_TYPE_SHA3_512 => WC_SHA3_512_DIGEST_SIZE
  end.

(** The C cast [(word32)len] of a [size_t] length. *)
Definition word32_of (n : Z) : Z := n mod 2 ^ 32.

(** ** wolfCrypt primitive family of one algorithm

    Each call takes the state it works on in place and returns the status
    it reports (0 on success) together with the state it leaves behind;
    the final call also returns the bytes it writes to the output buffer. *)
Record HashPrim (S : Type) := mk_HashPrim {
  hp_init : S -> Z * S;
  hp_update : S -> list byte -> Z -> Z * S;
  hp_final : S -> Z * S * list byte;
  hp_free : S -> Z * S
}.
Arguments mk_HashPrim {S}.
Arguments hp_init {S}.
Arguments hp_update {S}.
Arguments hp_final {S}.
Arguments hp_free {S}.

(** ** Engine calls made by the adapter, as they are logged *)
Inductive call :=
| C_HashInit (t : wc_HashType)
| C_HashUpdate (t : wc_HashType) (data : list byte) (sz : Z)
| C_HashFinal (t : wc_HashType)
| C_HashFree (t : wc_HashType)
| C_InitSha256
| C_Sha256Update (data : list byte) (sz : Z)
| C_Sha256Final
| C_Sha256Free.

(** ** The EVP_MD_CTX seen by a digest method

    [md_data] is [EVP_MD_CTX_md_data(ctx)] (possibly NULL), [md_out] the
    caller's output buffer, [calls] the engine calls made so far. *)
Record World (D : Type) := mk_World {
  md_data : option D;
  md_out : list byte;
  calls : list call
}.
Arguments mk_World {D}.
Arguments md_data {D}.
Arguments md_out {D}.
Arguments calls {D}.

(** State monad with a fault outcome ([None]: NULL dereference). *)
Definition M (D A : Type) := World D -> option (A * World D).

Definition mret {D A} (a : A) : M D A := fun w => Some (a, w).
Definition mbind {D A B} (m : M D A) (k : A -> M D B) : M D B :=
  fun w => match m w with
           | Some (a, w') => k a w'
           | None => None
           end.

Notation "x <- m ;; k" := (mbind m (fun x => k))
  (at level 61, m at next level, right associativity).
Notation "m ;;; k" := (mbind m (fun _ => k))
  (at level 61, right associativity).

(** Dereference [EVP_MD_CTX_md_data(ctx)]. *)
Definition get_data {D} : M D D :=
  fun w => match md_data w with
           | Some d => Some (d, w)
           | None => None
           end.

(** Read the pointer itself, NULL included. *)
Definition get_data_ptr {D} : M D (option D) := fun w => Some (md_data w, w).

Definition put_data {D} (d : D) : M D unit :=
  fun w => Some (tt, mk_World (Some d) (md_out w) (calls w)).

Definition log_call {D} (c : call) : M D unit :=
  fun w => Some (tt, mk_World (md_data w) (md_out w) (calls w ++ [c])).

Definition write_md {D} (bs : list byte) : M D unit :=
  fun w => Some (tt, mk_World (md_data w) bs (calls w)).

(** [if (ret != 0) { ret = 0; } else { ret = 1; }] *)
Definition status_to_ret (ret : Z) : Z := if Z.eqb ret 0 then 1 else 0.

(** ** Generic dispatch path (WE_USE_HASH) *)
Module Generic.
Section Generic.

Variable wc_HashAlg : Type.
(** wolfCrypt's primitive family for each hash type. *)
Variable prim : wc_HashType -> HashPrim wc_HashAlg.

(** [typedef struct we_Digest { wc_HashAlg hash; enum wc_HashType hashType; }] *)
Record we_Digest := mk_we_Digest {
  hash : wc_HashAlg;
  hashType : wc_HashType
}.

Definition W := World we_Digest.

(** wolfCrypt's [wc_HashInit(&digest->hash, t)]: dispatches on [t]. *)
Definition wc_HashInit (t : wc_HashType) : M we_Digest Z :=
  log_call (C_HashInit t) ;;;
  d <- get_data ;;
  let '(st, h) := hp_init (prim t) (hash d) in
  put_data (mk_we_Digest h (hashType d)) ;;;
  mret st.

(** [wc_HashUpdate(&digest->hash, t, data, sz)] *)
Definition wc_HashUpdate (t : wc_HashType) (data : list byte) (sz : Z)
  : M we_Digest Z :=
  log_call (C_HashUpdate t data sz) ;;;
  d <- get_data ;;
  let '(st, h) := hp_update (prim t) (hash d) data sz in
  put_data (mk_we_Digest h (hashType d)) ;;;
  mret st.

(** [wc_HashFinal(&digest->hash, t, md)]: writes into the output buffer. *)
Definition wc_HashFinal (t : wc_HashType) : M we_Digest Z :=
  log_call (C_HashFinal t) ;;;
  d <- get_data ;;
  let '(st, h, out) := hp_final (prim t) (hash d) in
  put_data (mk_we_Digest h (hashType d)) ;;;
  write_md out ;;;
  mret st.

(** [wc_HashFree(&digest->hash, t)] *)
Definition wc_HashFree (t : wc_HashType) : M we_Digest Z :=
  log_call (C_HashFree t) ;;;
  d <- get_data ;;
  let '(st, h) := hp_free (prim t) (hash d) in
  put_data (mk_we_Digest h (hashType d)) ;;;
  mret st.

(** Body shared by the seven initialisers [we_sha256_init] ...
    [we_sha3_512_init], which differ only in the literal tag:
    [digest->hashType = t; ret = wc_HashInit(&digest->hash, digest->hashType);] *)
Definition we_hash_init (t : wc_HashType) : M we_Digest Z :=
  digest <- get_data ;;
  put_data (mk_we_Digest (hash digest) t) ;;;
  digest <- get_data ;;
  ret <- wc_HashInit (hashType digest) ;;
  mret (status_to_ret ret).

Definition we_sha256_init := we_hash_init WC_HASH_TYPE_SHA256.
Definition we_sha384_init := we_hash_init WC_HASH_TYPE_SHA384.
Definition we_sha512_init := we_hash_init WC_HASH_TYPE_SHA512.
Definition we_sha3_224_init := we_hash_init WC_HASH_TYPE_SHA3_224.
Definition we_sha3_256_init := we_hash_init WC_HASH_TYPE_SHA3_256.
Definition we_sha3_384_init := we_hash_init WC_HASH_TYPE_SHA3_384.
Definition we_sha3_512_init := we_hash_init WC_HASH_TYPE_SHA3_512.

(** The initialiser bound for each type by [we_init_*_meth]. *)
Definition init_of (t : wc_HashType) : M we_Digest Z :=
  match t with
  | WC_HASH_TYPE_SHA256 => we_sha256_init
  | WC_HASH_TYPE_SHA384 => we_sha384_init
  | WC_HASH_TYPE_SHA512 => we_sha512_init
  | WC_HASH_TYPE_SHA3_224 => we_sha3_224_init
  | WC_HASH_TYPE_SHA3_256 => we_sha3_256_init
  | WC_HASH_TYPE_SHA3_384 => we_sha3_384_init
  | WC_HASH_TYPE_SHA3_512 => we_sha3_512_init
  end.

(** [we_digest_update(ctx, data, len)] *)
Definition we_digest_update (data : list byte) (len : Z) : M we_Digest Z :=
  digest <- get_data ;;
  ret <- wc_HashUpdate (hashType digest) data (word32_of len) ;;
  mret (status_to_ret ret).

(** [we_digest_final(ctx, md)] *)
Definition we_digest_final : M we_Digest Z :=
  digest <- get_data ;;
  ret <- wc_HashFinal (hashType digest) ;;
  mret (status_to_ret ret).

(** [we_digest_cleanup(ctx)]; [fips_v1] is the build where
    [HAVE_FIPS_VERSION] is defined and below 2. *)
Definition we_digest_cleanup (fips_v1 : bool) : M we_Digest Z :=
  if fips_v1 then mret 1
  else
    digest <- get_data_ptr ;;
    match digest with
    | Some d =>
        ret <- wc_HashFree (hashType d) ;;
        mret (status_to_ret ret)
    | None => mret 1
    end.

(** The operations a caller may apply to a session after init. *)
Inductive op :=
| Op_update (data : list byte) (len : Z)
| Op_final
| Op_cleanup (fips_v1 : bool).

Definition run_op (o : op) : M we_Digest Z :=
  match o with
  | Op_update data len => we_digest_update data len
  | Op_final => we_digest_final
  | Op_cleanup f => we_digest_cleanup f
  end.

(** Run a sequence of operations, collecting their return values. *)
Fixpoint run_ops (os : list op) : M we_Digest (list Z) :=
  match os with
  | [] => mret []
  | o :: os' =>
      r <- run_op o ;;
      rs <- run_ops os' ;;
      mret (r :: rs)
  end.

(** A caller feeding chunks [(data, len)] one by one. *)
Fixpoint run_updates (chunks : list (list byte * Z)) : M we_Digest (list Z) :=
  match chunks with
  | [] => mret []
  | (data, len) :: cs =>
      r <- we_digest_update data len ;;
      rs <- run_updates cs ;;
      mret (r :: rs)
  end.

(** A whole SHA-256 computation through the generic path:
    [EVP_DigestInit], [EVP_DigestUpdate]*, [EVP_DigestFinal]. *)
Definition sha256_digest (chunks : list (list byte * Z)) : M we_Digest (list Z) :=
  r0 <- we_sha256_init ;;
  rs <- run_updates chunks ;;
  rf <- we_digest_final ;;
  mret (r0 :: rs ++ [rf]).

End Generic.
End Generic.

Arguments Generic.mk_we_Digest {wc_HashAlg}.
Arguments Generic.hash {wc_HashAlg}.
Arguments Generic.hashType {wc_HashAlg}.
Arguments Generic.we_hash_init {wc_HashAlg}.
Arguments Generic.init_of {wc_HashAlg}.
Arguments Generic.we_digest_update {wc_HashAlg}.
Arguments Generic.we_digest_final {wc_HashAlg}.
Arguments Generic.we_digest_cleanup {wc_HashAlg}.
Arguments Generic.run_op {wc_HashAlg}.
Arguments Generic.run_ops {wc_HashAlg}.
Arguments Generic.run_updates {wc_HashAlg}.
Arguments Generic.sha256_digest {wc_HashAlg}.

(** ** Fixed-function SHA-256 path (WE_SHA256_DIRECT)

    The context data is a [wc_Sha256] and the adapter calls wolfCrypt's
    SHA-256 primitives directly. *)
Module Direct.
Section Direct.

Variable wc_Sha256 : Type.
(** wolfCrypt's SHA-256 family: [wc_InitSha256], [wc_Sha256Update],
    [wc_Sha256Final], [wc_Sha256Free]. *)
Variable sha : HashPrim wc_Sha256.

(** wolfCrypt rejects a NULL state with [BAD_FUNC_ARG]. *)
Definition BAD_FUNC_ARG : Z := -173.

Definition wc_InitSha256 : M wc_Sha256 Z :=
  log_call C_InitSha256 ;;;
  p <- get_data_ptr ;;
  match p with
  | None => mret BAD_FUNC_ARG
  | Some s =>
      let '(st, s') := hp_init sha s in
      put_data s' ;;;
      mret st
  end.

Definition wc_Sha256Update (data : list byte) (sz : Z) : M wc_Sha256 Z :=
  log_call (C_Sha256Update data sz) ;;;
  p <- get_data_ptr ;;
  match p with
  | None => mret BAD_FUNC_ARG
  | Some s =>
      let '(st, s') := hp_update sha s data sz in
      put_data s' ;;;
      mret st
  end.

Definition wc_Sha256Final : M wc_Sha256 Z :=
  log_call C_Sha256Final ;;;
  p <- get_data_ptr ;;
  match p with
  | None => mret BAD_FUNC_ARG
  | Some s =>
      let '(st, s', out) := hp_final sha s in
      put_data s' ;;;
      write_md out ;;;
      mret st
  end.

(** [void wc_Sha256Free(wc_Sha256 *sha)]: returns at once on NULL. *)
Definition wc_Sha256Free : M wc_Sha256 unit :=
  log_call C_Sha256Free ;;;
  p <- get_data_ptr ;;
  match p with
  | None => mret tt
  | Some s =>
      let '(_, s') := hp_free sha s in
      put_data s'
  end.

Definition we_sha256_init : M wc_Sha256 Z :=
  ret <- wc_InitSha256 ;;
  mret (status_to_ret ret).

Definition we_sha256_update (data : list byte) (len : Z) : M wc_Sha256 Z :=
  ret <- wc_Sha256Update data (word32_of len) ;;
  mret (status_to_ret ret).

Definition we_sha256_final : M wc_Sha256 Z :=
  ret <- wc_Sha256Final ;;
  mret (status_to_ret ret).

Definition we_sha256_cleanup : M wc_Sha256 Z :=
  wc_Sha256Free ;;;
  mret 1.

Fixpoint run_updates (chunks : list (list byte * Z)) : M wc_Sha256 (list Z) :=
  match chunks with
  | [] => mret []
  | (data, len) :: cs =>
      r <- we_sha256_update data len ;;
      rs <- run_updates cs ;;
      mret (r :: rs)
  end.

Definition sha256_digest (chunks : list (list byte * Z)) : M wc_Sha256 (list Z) :=
  r0 <- we_sha256_init ;;
  rs <- run_updates chunks ;;
  rf <- we_sha256_final ;;
  mret (r0 :: rs ++ [rf]).

End Direct.
End Direct.

Arguments Direct.we_sha256_init {wc_Sha256}.
Arguments Direct.we_sha256_update {wc_Sha256}.
Arguments Direct.we_sha256_final {wc_Sha256}.
Arguments Direct.we_sha256_cleanup {wc_Sha256}.
Arguments Direct.run_updates {wc_Sha256}.
Arguments Direct.sha256_digest {wc_Sha256}.

(** ** A reference engine: the state is the bytes fed so far

    Init starts from no bytes, update appends the [sz] bytes it is given,
    final writes [H t] of everything fed; every call succeeds. *)
Definition concat_prim (H : wc_HashType -> list byte -> list byte)
  (t : wc_HashType) : HashPrim (list byte) :=
  mk_HashPrim
    (fun _ => (0, []))
    (fun s data sz => (0, s ++ firstn (Z.to_nat sz) data))
    (fun s => (0, s, H t s))
    (fun s => (0, s)).

(** ** Method descriptors: [we_init_digest_meth] and [we_init_*_meth]

    OpenSSL's [EVP_MD] records live in a heap indexed by pointers; the
    global [we_*_md] variables hold pointers into it.  Whether each OpenSSL
    call succeeds is decided by the oracle [ok]; every call is made at
    most once per registration. *)
Module Registry.

Definition NID_sha256 : Z := 672.
Definition NID_sha384 : Z := 673.
Definition NID_sha512 : Z := 674.
Definition NID_sha3_224 : Z := 1096.
Definition NID_sha3_256 : Z := 1097.
Definition NID_sha3_384 : Z := 1098.
Definition NID_sha3_512 : Z := 1099.

Definition nid_of (t : wc_HashType) : Z :=
  match t with
  | WC_HASH_TYPE_SHA256 => NID_sha256
  | WC_HASH_TYPE_SHA384 => NID_sha384
  | WC_HASH_TYPE_SHA512 => NID_sha512
  | WC_HASH_TYPE_SHA3_224 => NID_sha3_224
  | WC_HASH_TYPE_SHA3_256 => NID_sha3_256
  | WC_HASH_TYPE_SHA3_384 => NID_sha3_384
  | WC_HASH_TYPE_SHA3_512 => NID_sha3_512
  end.

(** The digest size constant passed to [EVP_MD_meth_set_result_size] by
    each [we_init_*_meth]. *)
Definition result_size_of (t : wc_HashType) : Z :=
  match t with
  | WC_HASH_TYPE_SHA256 => WC_SHA256_DIGEST_SIZE
  | WC_HASH_TYPE_SHA384 => WC_SHA384_DIGEST_SIZE
  | WC_HASH_TYPE_SHA512 => WC_SHA512_DIGEST_SIZE
  | WC_HASH_TYPE_SHA3_224 => WC_SHA3_224_DIGEST_SIZE
  | WC_HASH_TYPE_SHA3_256 => WC_SHA3_256_DIGEST_SIZE
  | WC_HASH_TYPE_SHA3_384 => WC_SHA3_384_DIGEST_SIZE
  | WC_HASH_TYPE_SHA3_512 => WC_SHA3_512_DIGEST_SIZE
  end.

(** The functions a descriptor can be bound to.  [F_init t] is the
    generic initialiser that binds tag [t] ([Generic.init_of t]). *)
Inductive meth_fn :=
| F_init (t : wc_HashType)
| F_digest_update
| F_digest_final
| F_digest_cleanup.

Record EVP_MD := mk_EVP_MD {
  md_type : Z;
  md_init : option meth_fn;
  md_update : option meth_fn;
  md_final : option meth_fn;
  md_cleanup : option meth_fn;
  md_result_size : Z;
  md_app_datasize : Z
}.

Inductive step :=
| S_meth_new
| S_set_init
| S_set_result_size
| S_set_update
| S_set_final
| S_set_cleanup
| S_set_app_datasize.

Record RegWorld := mk_RegWorld {
  heap : list (nat * EVP_MD);
  next_ptr : nat;
  (** the global [EVP_MD *we_*_md] of each algorithm *)
  md_global : wc_HashType -> option nat
}.

Fixpoint heap_lookup (p : nat) (h : list (nat * EVP_MD)) : option EVP_MD :=
  match h with
  | [] => None
  | (q, r) :: h' => if Nat.eqb p q then Some r else heap_lookup p h'
  end.

Fixpoint heap_update (p : nat) (f : EVP_MD -> EVP_MD) (h : list (nat * EVP_MD))
  : list (nat * EVP_MD) :=
  match h with
  | [] => []
  | (q, r) :: h' =>
      if Nat.eqb p q then (q, f r) :: h' else (q, r) :: heap_update p f h'
  end.

Fixpoint heap_remove (p : nat) (h : list (nat * EVP_MD)) : list (nat * EVP_MD) :=
  match h with
  | [] => []
  | (q, r) :: h' => if Nat.eqb p q then heap_remove p h' else (q, r) :: heap_remove p h'
  end.

Definition set_global (t : wc_HashType) (p : option nat) (w : RegWorld) : RegWorld :=
  mk_RegWorld (heap w) (next_ptr w)
    (fun t' => if wc_HashType_eqb t t' then p else md_global w t').

Section Meth.

Variable ok : step -> bool.
(** [sizeof(we_Digest)] *)
Variable sizeof_we_Digest : Z.

(** [EVP_MD_meth_new(nid, EVP_PKEY_NONE)]: a fresh record, or NULL. *)
Definition EVP_MD_meth_new (nid : Z) (w : RegWorld) : option nat * RegWorld :=
  if ok S_meth_new then
    let p := next_ptr w in
    (Some p,
     mk_RegWorld ((p, mk_EVP_MD nid None None None None 0 0) :: heap w)
       (S p) (md_global w))
  else (None, w).

(** A setter: 1 and the field written on success, 0 otherwise.  The
    pointer is never NULL where the code calls a setter ([ret == 1]
    implies a successful [EVP_MD_meth_new]); NULL is given 0 here. *)
Definition meth_set (s : step) (f : EVP_MD -> EVP_MD) (p : option nat)
  (w : RegWorld) : Z * RegWorld :=
  match p with
  | Some q =>
      if ok s then (1, mk_RegWorld (heap_update q f (heap w)) (next_ptr w) (md_global w))
      else (0, w)
  | None => (0, w)
  end.

Definition EVP_MD_meth_set_init (p : option nat) (fn : meth_fn) :=
  meth_set S_set_init (fun r => mk_EVP_MD (md_type r) (Some fn) (md_update r)
    (md_final r) (md_cleanup r) (md_result_size r) (md_app_datasize r)) p.
Definition EVP_MD_meth_set_result_size (p : option nat) (n : Z) :=
  meth_set S_set_result_size (fun r => mk_EVP_MD (md_type r) (md_init r)
    (md_update r) (md_final r) (md_cleanup r) n (md_app_datasize r)) p.
Definition EVP_MD_meth_set_update (p : option nat) (fn : meth_fn) :=
  meth_set S_set_update (fun r => mk_EVP_MD (md_type r) (md_init r) (Some fn)
    (md_final r) (md_cleanup r) (md_result_size r) (md_app_datasize r)) p.
Definition EVP_MD_meth_set_final (p : option nat) (fn : meth_fn) :=
  meth_set S_set_final (fun r => mk_EVP_MD (md_type r) (md_init r) (md_update r)
    (Some fn) (md_cleanup r) (md_result_size r) (md_app_datasize r)) p.
Definition EVP_MD_meth_set_cleanup (p : option nat) (fn : meth_fn) :=
  meth_set S_set_cleanup (fun r => mk_EVP_MD (md_type r) (md_init r) (md_update r)
    (md_final r) (Some fn) (md_result_size r) (md_app_datasize r)) p.
Definition EVP_MD_meth_set_app_datasize (p : option nat) (n : Z) :=
  meth_set S_set_app_datasize (fun r => mk_EVP_MD (md_type r) (md_init r)
    (md_update r) (md_final r) (md_cleanup r) (md_result_size r) n) p.

(** [EVP_MD_meth_free(p)] *)
Definition EVP_MD_meth_free (p : option nat) (w : RegWorld) : RegWorld :=
  match p with
  | Some q => mk_RegWorld (heap_remove q (heap w)) (next_ptr w) (md_global w)
  | None => w
  end.

(** [we_init_digest_meth(method)] *)
Definition we_init_digest_meth (method : option nat) (w : RegWorld) : Z * RegWorld :=
  let '(ret, w) := EVP_MD_meth_set_update method F_digest_update w in
  let '(ret, w) := if Z.eqb ret 1
                   then EVP_MD_meth_set_final method F_digest_final w else (ret, w) in
  let '(ret, w) := if Z.eqb ret 1
                   then EVP_MD_meth_set_cleanup method F_digest_cleanup w else (ret, w) in
  if Z.eqb ret 1
  then EVP_MD_meth_set_app_datasize method sizeof_we_Digest w else (ret, w).

(** Body shared by the seven [we_init_*_meth] of the generic path, which
    differ only in the global, the NID, the initialiser and the size. *)
Definition we_init_md_meth (t : wc_HashType) (w : RegWorld) : Z * RegWorld :=
  let '(p, w) := EVP_MD_meth_new (nid_of t) w in
  let w := set_global t p w in
  let ret := if p then 1 else 0 in
  let '(ret, w) := if Z.eqb ret 1
                   then EVP_MD_meth_set_init (md_global w t) (F_init t) w
                   else (ret, w) in
  let '(ret, w) := if Z.eqb ret 1
                   then EVP_MD_meth_set_result_size (md_global w t) (result_size_of t) w
                   else (ret, w) in
  let '(ret, w) := if Z.eqb ret 1
                   then we_init_digest_meth (md_global w t) w
                   else (ret, w) in
  if negb (Z.eqb ret 1) && (if md_global w t then true else false)
  then (ret, EVP_MD_meth_free (md_global w t) w)
  else (ret, w).

Definition we_init_sha256_meth := we_init_md_meth WC_HASH_TYPE_SHA256.
Definition we_init_sha384_meth := we_init_md_meth WC_HASH_TYPE_SHA384.
Definition we_init_sha512_meth := we_init_md_meth WC_HASH_TYPE_SHA512.
Definition we_init_sha3_224_meth := we_init_md_meth WC_HASH_TYPE_SHA3_224.
Definition we_init_sha3_256_meth := we_init_md_meth WC_HASH_TYPE_SHA3_256.
Definition we_init_sha3_384_meth := we_init_md_meth WC_HASH_TYPE_SHA3_384.
Definition we_init_sha3_512_meth := we_init_md_meth WC_HASH_TYPE_SHA3_512.

End Meth.

(** No records and every global NULL: the state before registration. *)
Definition empty_world : RegWorld := mk_RegWorld [] 0 (fun _ => None).

End Registry.

(** ** Method descriptor of the fixed-function build (WE_SHA256_DIRECT)

    The fixed-function build has its own [we_init_sha256_meth], binding the
    [wc_Sha256]-based functions and [sizeof(wc_Sha256)]; it never coexists
    with the generic build, so it gets its own heap and global. *)
Module DirectRegistry.

Inductive direct_fn :=
| F_we_sha256_init
| F_we_sha256_update
| F_we_sha256_final
| F_we_sha256_cleanup.

Record EVP_MD := mk_EVP_MD {
  md_type : Z;
  md_init : option direct_fn;
  md_update : option direct_fn;
  md_final : option direct_fn;
  md_cleanup : option direct_fn;
  md_result_size : Z;
  md_app_datasize : Z
}.

Record RegWorld := mk_RegWorld {
  heap : list (nat * EVP_MD);
  next_ptr : nat;
  (** the global [EVP_MD *we_sha256_md] *)
  we_sha256_md : option nat
}.

Fixpoint heap_lookup (p : nat) (h : list (nat * EVP_MD)) : option EVP_MD :=
  match h with
  | [] => None
  | (q, r) :: h' => if Nat.eqb p q then Some r else heap_lookup p h'
  end.

Fixpoint heap_update (p : nat) (f : EVP_MD -> EVP_MD) (h : list (nat * EVP_MD))
  : list (nat * EVP_MD) :=
  match h with
  | [] => []
  | (q, r) :: h' =>
      if Nat.eqb p q then (q, f r) :: h' else (q, r) :: heap_update p f h'
  end.

Fixpoint heap_remove (p : nat) (h : list (nat * EVP_MD)) : list (nat * EVP_MD) :=
  match h with
  | [] => []
  | (q, r) :: h' => if Nat.eqb p q then heap_remove p h' else (q, r) :: heap_remove p h'
  end.

Section Meth.

Variable ok : Registry.step -> bool.
(** [sizeof(wc_Sha256)] *)
Variable sizeof_wc_Sha256 : Z.

Definition EVP_MD_meth_new (nid : Z) (w : RegWorld) : option nat * RegWorld :=
  if ok Registry.S_meth_new then
    let p := next_ptr w in
    (Some p,
     mk_RegWorld ((p, mk_EVP_MD nid None None None None 0 0) :: heap w)
       (S p) (we_sha256_md w))
  else (None, w).

Definition meth_set (s : Registry.step) (f : EVP_MD -> EVP_MD) (p : option nat)
  (w : RegWorld) : Z * RegWorld :=
  match p with
  | Some q =>
      if ok s then (1, mk_RegWorld (heap_update q f (heap w)) (next_ptr w) (we_sha256_md w))
      else (0, w)
  | None => (0, w)
  end.

Definition EVP_MD_meth_set_init (p : option nat) (fn : direct_fn) :=
  meth_set Registry.S_set_init (fun r => mk_EVP_MD (md_type r) (Some fn) (md_update r)
    (md_final r) (md_cleanup r) (md_result_size r) (md_app_datasize r)) p.
Definition EVP_MD_meth_set_update (p : option nat) (fn : direct_fn) :=
  meth_set Registry.S_set_update (fun r => mk_EVP_MD (md_type r) (md_init r) (Some fn)
    (md_final r) (md_cleanup r) (md_result_size r) (md_app_datasize r)) p.
Definition EVP_MD_meth_set_final (p : option nat) (fn : direct_fn) :=
  meth_set Registry.S_set_final (fun r => mk_EVP_MD (md_type r) (md_init r) (md_update r)
    (Some fn) (md_cleanup r) (md_result_size r) (md_app_datasize r)) p.
Definition EVP_MD_meth_set_cleanup (p : option nat) (fn : direct_fn) :=
  meth_set Registry.S_set_cleanup (fun r => mk_EVP_MD (md_type r) (md_init r) (md_update r)
    (md_final r) (Some fn) (md_result_size r) (md_app_datasize r)) p.
Definition EVP_MD_meth_set_result_size (p : option nat) (n : Z) :=
  meth_set Registry.S_set_result_size (fun r => mk_EVP_MD (md_type r) (md_init r)
    (md_update r) (md_final r) (md_cleanup r) n (md_app_datasize r)) p.
Definition EVP_MD_meth_set_app_datasize (p : option nat) (n : Z) :=
  meth_set Registry.S_set_app_datasize (fun r => mk_EVP_MD (md_type r) (md_init r)
    (md_update r) (md_final r) (md_cleanup r) (md_result_size r) n) p.

Definition EVP_MD_meth_free (p : option nat) (w : RegWorld) : RegWorld :=
  match p with
  | Some q => mk_RegWorld (heap_remove q (heap w)) (next_ptr w) (we_sha256_md w)
  | None => w
  end.

(** [we_init_sha256_meth()] of the fixed-function build. *)
Definition we_init_sha256_meth (w : RegWorld) : Z * RegWorld :=
  let '(p, w) := EVP_MD_meth_new Registry.NID_sha256 w in
  let w := mk_RegWorld (heap w) (next_ptr w) p in
  let ret := if p then 1 else 0 in
  let '(ret, w) := if Z.eqb ret 1
                   then EVP_MD_meth_set_init (we_sha256_md w) F_we_sha256_init w
                   else (ret, w) in
  let '(ret, w) := if Z.eqb ret 1
                   then EVP_MD_meth_set_update (we_sha256_md w) F_we_sha256_update w
                   else (ret, w) in
  let '(ret, w) := if Z.eqb ret 1
                   then EVP_MD_meth_set_final (we_sha256_md w) F_we_sha256_final w
                   else (ret, w) in
  let '(ret, w) := if Z.eqb ret 1
                   then EVP_MD_meth_set_cleanup (we_sha256_md w) F_we_sha256_cleanup w
                   else (ret, w) in
  let '(ret, w) := if Z.eqb ret 1
                   then EVP_MD_meth_set_result_size (we_sha256_md w) WC_SHA256_DIGEST_SIZE w
                   else (ret, w) in
  let '(ret, w) := if Z.eqb ret 1
                   then EVP_MD_meth_set_app_datasize (we_sha256_md w) sizeof_wc_Sha256 w
                   else (ret, w) in
  if negb (Z.eqb ret 1) && (if we_sha256_md w then true else false)
  then (ret, EVP_MD_meth_free (we_sha256_md w) w)
  else (ret, w).

End Meth.

Definition empty_world : RegWorld := mk_RegWorld [] 0 None.

End DirectRegistry.

(** A caller's whole computation through the generic path for type [t]:
    [EVP_DigestInit_ex], [EVP_DigestUpdate] per chunk, [EVP_DigestFinal_ex]. *)
Definition digest_session {S} (prim : wc_HashType -> HashPrim S) (t : wc_HashType)
  (chunks : list (list byte * Z)) : M (Generic.we_Digest S) (list Z) :=
  r0 <- Generic.init_of prim t ;;
  rs <- Generic.run_updates prim chunks ;;
  rf <- Generic.we_digest_final prim ;;
  mret (r0 :: rs ++ [rf]).

(** The bytes a chunk [(data, len)] hands to the engine when [len] fits. *)
Definition fed (chunk : list byte * Z) : list byte :=
  let '(data, len) := chunk in firstn (Z.to_nat len) data.

(** Every chunk length is a [size_t] that fits in a [word32]. *)
Definition lens_fit (chunks : list (list byte * Z)) : Prop :=
  Forall (fun c : list byte * Z => 0 <= snd c < 2 ^ 32) chunks.

(** ** Concrete engines and contexts used to exercise the model *)

(** A digest of the right size for each type. *)
Definition H_sized (t : wc_HashType) (m : list byte) : list byte :=
  repeat Byte.x00 (Z.to_nat (wc_HashGetDigestSize t)).

Definition prim0 := concat_prim H_sized.

(** An engine whose every call reports the error -1. *)
Definition prim_fail (t : wc_HashType) : HashPrim (list byte) :=
  mk_HashPrim (fun s => (-1, s)) (fun s _ _ => (-1, s))
    (fun s => (-1, s, [])) (fun s => (-1, s)).

Definition d0 : Generic.we_Digest (list byte) :=
  Generic.mk_we_Digest [] WC_HASH_TYPE_SHA384.

Definition w0 : World (Generic.we_Digest (list byte)) := mk_World (Some d0) [] [].

Definition w_null : World (Generic.we_Digest (list byte)) := mk_World None [] [].

Definition ops0 : list Generic.op :=
  [Generic.Op_update [Byte.x01; Byte.x02] 2; Generic.Op_update [] 0;
   Generic.Op_final; Generic.Op_cleanup false].

Definition ops0_world : World (Generic.we_Digest (list byte)) :=
  match Generic.run_ops prim0 ops0 w0 with Some (_, w) => w | None => w0 end.

(** A ready session of type [t] over the reference engine (no bytes fed). *)
Definition ready_world (t : wc_HashType) : World (Generic.we_Digest (list byte)) :=
  mk_World (Some (Generic.mk_we_Digest [] t)) [] [].

(** The digest bytes after one update of the whole of [data] and final. *)
Definition digest_whole (H : wc_HashType -> list byte -> list byte)
  (t : wc_HashType) (data : list byte) : option (list byte) :=
  match Generic.run_ops (concat_prim H)
          [Generic.Op_update data (Z.of_nat (length data)); Generic.Op_final]
          (ready_world t) with
  | Some (_, w) => Some (md_out w)
  | None => None
  end.

(** The digest bytes after updates of [data[0:n]] and [data[n:m]] and final. *)
Definition digest_split (H : wc_HashType -> list byte -> list byte)
  (t : wc_HashType) (data : list byte) (n : nat) : option (list byte) :=
  match Generic.run_ops (concat_prim H)
          [Generic.Op_update (firstn n data) (Z.of_nat n);
           Generic.Op_update (skipn n data) (Z.of_nat (length data - n));
           Generic.Op_final]
          (ready_world t) with
  | Some (_, w) => Some (md_out w)
  | None => None
  end.

(** 2^32 zero bytes: a buffer whose [size_t] length does not fit a [word32]. *)
Definition data_4GiB : list byte := repeat Byte.x00 (Z.to_nat (2 ^ 32)).

(** Registration oracles: everything succeeds; binding the initialiser fails. *)
Definition ok_all (s : Registry.step) : bool := true.

Definition ok_none (s : Registry.step) : bool := false.

Definition ok_set_init_fails (s : Registry.step) : bool :=
  match s with Registry.S_set_init => false | _ => true end.

Definition reg_sha3_224 := Registry.we_init_sha3_224_meth ok_all 100 Registry.empty_world.

Definition cleanup_ops : list Generic.op :=
  [Generic.Op_cleanup false; Generic.Op_update [] 0; Generic.Op_cleanup false].

Definition after_final_world : World (Generic.we_Digest (list byte)) :=
  match Generic.we_digest_final prim0 w0 with Some (_, w) => w | None => w0 end.

Definition cleanup_ops_world : World (Generic.we_Digest (list byte)) :=
  match Generic.run_ops prim0 cleanup_ops after_final_world with
  | Some (_, w) => w | None => w0 end.

Definition reg_two := Registry.we_init_sha384_meth ok_all 100 (snd reg_sha3_224).

(** The record a successful generic [we_init_*_meth] leaves behind. *)
Definition generic_record (t : wc_HashType) (sz : Z) : Registry.EVP_MD :=
  Registry.mk_EVP_MD (Registry.nid_of t) (Some (Registry.F_init t))
    (Some Registry.F_digest_update) (Some Registry.F_digest_final)
    (Some Registry.F_digest_cleanup) (Registry.result_size_of t) sz.

(** The record a successful fixed-function [we_init_sha256_meth] leaves behind. *)
Definition direct_record (sz : Z) : DirectRegistry.EVP_MD :=
  DirectRegistry.mk_EVP_MD Registry.NID_sha256 (Some DirectRegistry.F_we_sha256_init)
    (Some DirectRegistry.F_we_sha256_update) (Some DirectRegistry.F_we_sha256_final)
    (Some DirectRegistry.F_we_sha256_cleanup) WC_SHA256_DIGEST_SIZE sz.

(** * Properties *)

Ltac unfold_m :=
  unfold mbind, mret, get_data, get_data_ptr, put_data, log_call, write_md in *.

Lemma status_to_ret_spec (st : Z) :
  (status_to_ret st = 1 <-> st = 0) /\ (status_to_ret st = 0 <-> st <> 0).
Proof.
  unfold status_to_ret; destruct (Z.eqb_spec st 0); split; split; intros; lia.
Qed.

Section GenericProps.

Context {S : Type} (prim : wc_HashType -> HashPrim S).

Lemma we_digest_update_eq (w : World (Generic.we_Digest S)) d data len :
  md_data w = Some d ->
  Generic.we_digest_update prim data len w =
  let '(st, h) := hp_update (prim (Generic.hashType d)) (Generic.hash d) data (word32_of len) in
  Some (status_to_ret st,
        mk_World (Some (Generic.mk_we_Digest h (Generic.hashType d))) (md_out w)
          (calls w ++ [C_HashUpdate (Generic.hashType d) data (word32_of len)])).
Proof.
  intros Hd. unfold Generic.we_digest_update, Generic.wc_HashUpdate. unfold_m.
  destruct w as [md mo cs]; cbn in Hd; subst md; cbn. destruct (hp_update _ _ _ _); reflexivity.
Qed.

Lemma we_digest_final_eq (w : World (Generic.we_Digest S)) d :
  md_data w = Some d ->
  Generic.we_digest_final prim w =
  let '(st, h, out) := hp_final (prim (Generic.hashType d)) (Generic.hash d) in
  Some (status_to_ret st,
        mk_World (Some (Generic.mk_we_Digest h (Generic.hashType d))) out
          (calls w ++ [C_HashFinal (Generic.hashType d)])).
Proof.
  intros Hd. unfold Generic.we_digest_final, Generic.wc_HashFinal. unfold_m.
  destruct w as [md mo cs]; cbn in Hd; subst md; cbn. destruct (hp_final _ _) as [[st h] out]; reflexivity.
Qed.

Lemma we_digest_cleanup_eq (w : World (Generic.we_Digest S)) d :
  md_data w = Some d ->
  Generic.we_digest_cleanup prim false w =
  let '(st, h) := hp_free (prim (Generic.hashType d)) (Generic.hash d) in
  Some (status_to_ret st,
        mk_World (Some (Generic.mk_we_Digest h (Generic.hashType d))) (md_out w)
          (calls w ++ [C_HashFree (Generic.hashType d)])).
Proof.
  intros Hd. unfold Generic.we_digest_cleanup, Generic.wc_HashFree. unfold_m.
  destruct w as [md mo cs]; cbn in Hd; subst md; cbn. destruct (hp_free _ _); reflexivity.
Qed.

Lemma we_digest_cleanup_fips_v1 (w : World (Generic.we_Digest S)) :
  Generic.we_digest_cleanup prim true w = Some (1, w).
Proof. reflexivity. Qed.

Lemma init_of_we_hash_init t : Generic.init_of prim t = Generic.we_hash_init prim t.
Proof. destruct t; reflexivity. Qed.

Lemma we_hash_init_eq (w : World (Generic.we_Digest S)) d t :
  md_data w = Some d ->
  Generic.we_hash_init prim t w =
  let '(st, h) := hp_init (prim t) (Generic.hash d) in
  Some (status_to_ret st,
        mk_World (Some (Generic.mk_we_Digest h t)) (md_out w)
          (calls w ++ [C_HashInit t])).
Proof.
  intros Hd. unfold Generic.we_hash_init, Generic.wc_HashInit. unfold_m.
  destruct w as [md mo cs]; cbn in Hd; subst md; cbn. destruct (hp_init _ _); reflexivity.
Qed.

(** Every operation after init keeps the context data and its tag. *)
Lemma run_op_keeps_hashType (o : Generic.op) (w w' : World (Generic.we_Digest S)) d r :
  md_data w = Some d ->
  Generic.run_op prim o w = Some (r, w') ->
  exists d', md_data w' = Some d' /\ Generic.hashType d' = Generic.hashType d.
Proof.
  intros Hd Hrun. destruct o as [data len | | [|]];
    cbv beta iota delta [Generic.run_op] in Hrun.
  - rewrite (we_digest_update_eq w d data len Hd) in Hrun.
    destruct (hp_update _ _ _ _) as [st h]. injection Hrun as _ <-.
    eexists; split; reflexivity.
  - rewrite (we_digest_final_eq w d Hd) in Hrun.
    destruct (hp_final _ _) as [[st h] out]. injection Hrun as _ <-.
    eexists; split; reflexivity.
  - rewrite we_digest_cleanup_fips_v1 in Hrun. injection Hrun as _ <-.
    exists d; split; [exact Hd | reflexivity].
  - rewrite (we_digest_cleanup_eq w d Hd) in Hrun.
    destruct (hp_free _ _) as [st h]. injection Hrun as _ <-.
    eexists; split; reflexivity.
Qed.

Lemma run_updates_keeps_hashType chunks (w w' : World (Generic.we_Digest S)) d rs :
  md_data w = Some d ->
  Generic.run_updates prim chunks w = Some (rs, w') ->
  exists d', md_data w' = Some d' /\ Generic.hashType d' = Generic.hashType d.
Proof.
  revert w d rs. induction chunks as [|[data len] cs IH]; intros w d rs Hd Hrun.
  - cbn in Hrun. injection Hrun as _ <-. eauto.
  - cbn in Hrun. unfold mbind at 1 in Hrun.
    destruct (Generic.we_digest_update prim data len w) as [[r w1]|] eqn:E1;
      [|discriminate].
    destruct (run_op_keeps_hashType (Generic.Op_update data len) w w1 d r Hd E1)
      as [d1 [Hd1 Ht1]].
    unfold mbind in Hrun.
    destruct (Generic.run_updates prim cs w1) as [[rs1 w2]|] eqn:E2; [|discriminate].
    unfold mret in Hrun. injection Hrun as _ <-.
    destruct (IH w1 d1 rs1 Hd1 E2) as [d2 [Hd2 Ht2]].
    exists d2; split; [exact Hd2 | congruence].
Qed.

End GenericProps.

(** ** Claims on the generic adapter *)

(** C1 (amended).  For a context with session data [d], update, final and
    (in the default build) cleanup each make exactly one engine call, the
    [wc_HashUpdate] / [wc_HashFinal] / [wc_HashFree] entry point at
    [d.hashType], and their result and new state are exactly the engine's
    status (mapped to 1/0) and state.  In a FIPS v1 build
    ([HAVE_FIPS_VERSION < 2]) cleanup calls no engine entry point. *)
Theorem digest_ops_dispatch_on_hashType {S} (prim : wc_HashType -> HashPrim S)
  (w : World (Generic.we_Digest S)) d data len :
  md_data w = Some d ->
  (Generic.we_digest_update prim data len w =
   let '(st, h) := hp_update (prim (Generic.hashType d)) (Generic.hash d) data (word32_of len) in
   Some (status_to_ret st,
         mk_World (Some (Generic.mk_we_Digest h (Generic.hashType d))) (md_out w)
           (calls w ++ [C_HashUpdate (Generic.hashType d) data (word32_of len)])))
  /\ (Generic.we_digest_final prim w =
      let '(st, h, out) := hp_final (prim (Generic.hashType d)) (Generic.hash d) in
      Some (status_to_ret st,
            mk_World (Some (Generic.mk_we_Digest h (Generic.hashType d))) out
              (calls w ++ [C_HashFinal (Generic.hashType d)])))
  /\ (Generic.we_digest_cleanup prim false w =
      let '(st, h) := hp_free (prim (Generic.hashType d)) (Generic.hash d) in
      Some (status_to_ret st,
            mk_World (Some (Generic.mk_we_Digest h (Generic.hashType d))) (md_out w)
              (calls w ++ [C_HashFree (Generic.hashType d)])))
  /\ Generic.we_digest_cleanup prim true w = Some (1, w).
Proof.
  intros Hd. split; [|split; [|split]].
  - apply we_digest_update_eq; exact Hd.
  - apply we_digest_final_eq; exact Hd.
  - apply we_digest_cleanup_eq; exact Hd.
  - apply we_digest_cleanup_fips_v1.
Qed.

Lemma digest_ops_dispatch_on_hashType_witness :
  md_data w0 = Some d0 /\
  (Generic.we_digest_update prim0 [Byte.x07] 1 w0 =
   let '(st, h) := hp_update (prim0 WC_HASH_TYPE_SHA384) [] [Byte.x07] (word32_of 1) in
   Some (status_to_ret st,
         mk_World (Some (Generic.mk_we_Digest h WC_HASH_TYPE_SHA384)) []
           [C_HashUpdate WC_HASH_TYPE_SHA384 [Byte.x07] (word32_of 1)]))
  /\ (Generic.we_digest_final prim0 w0 =
      let '(st, h, out) := hp_final (prim0 WC_HASH_TYPE_SHA384) [] in
      Some (status_to_ret st,
            mk_World (Some (Generic.mk_we_Digest h WC_HASH_TYPE_SHA384)) out
              [C_HashFinal WC_HASH_TYPE_SHA384]))
  /\ (Generic.we_digest_cleanup prim0 false w0 =
      let '(st, h) := hp_free (prim0 WC_HASH_TYPE_SHA384) [] in
      Some (status_to_ret st,
            mk_World (Some (Generic.mk_we_Digest h WC_HASH_TYPE_SHA384)) []
              [C_HashFree WC_HASH_TYPE_SHA384]))
  /\ Generic.we_digest_cleanup prim0 true w0 = Some (1, w0).
Proof.
  split; [reflexivity|].
  exact (digest_ops_dispatch_on_hashType prim0 w0 d0 [Byte.x07] 1 eq_refl).
Defined.

(** C1 counterexample: in a FIPS v1 build, cleanup of a ready SHA-384
    session makes no [wc_HashFree] call at the session's tag. *)
Lemma fips_v1_cleanup_skips_HashFree :
  ~ (exists r w', Generic.we_digest_cleanup prim0 true w0 = Some (r, w') /\
                  calls w' = calls w0 ++ [C_HashFree (Generic.hashType d0)]).
Proof.
  intros [r [w' [Hrun Hcalls]]]. cbn in Hrun. injection Hrun as _ <-.
  discriminate Hcalls.
Qed.

(** C5.  Init (for every type), update and final each make exactly one
    engine call and return 1 exactly when that call reports status 0, and 0
    exactly when it reports a nonzero status. *)
Theorem adapter_ops_return_engine_status {S} (prim : wc_HashType -> HashPrim S)
  (w : World (Generic.we_Digest S)) d :
  md_data w = Some d ->
  (forall t, exists r w',
      Generic.init_of prim t w = Some (r, w') /\
      calls w' = calls w ++ [C_HashInit t] /\
      (r = 1 <-> fst (hp_init (prim t) (Generic.hash d)) = 0) /\
      (r = 0 <-> fst (hp_init (prim t) (Generic.hash d)) <> 0))
  /\ (forall data len, exists r w',
      Generic.we_digest_update prim data len w = Some (r, w') /\
      calls w' = calls w ++ [C_HashUpdate (Generic.hashType d) data (word32_of len)] /\
      (r = 1 <-> fst (hp_update (prim (Generic.hashType d)) (Generic.hash d) data
                        (word32_of len)) = 0) /\
      (r = 0 <-> fst (hp_update (prim (Generic.hashType d)) (Generic.hash d) data
                        (word32_of len)) <> 0))
  /\ (exists r w',
      Generic.we_digest_final prim w = Some (r, w') /\
      calls w' = calls w ++ [C_HashFinal (Generic.hashType d)] /\
      (r = 1 <-> fst (fst (hp_final (prim (Generic.hashType d)) (Generic.hash d))) = 0) /\
      (r = 0 <-> fst (fst (hp_final (prim (Generic.hashType d)) (Generic.hash d))) <> 0)).
Proof.
  intros Hd. split; [|split].
  - intros t. rewrite init_of_we_hash_init, (we_hash_init_eq prim w d t Hd).
    destruct (hp_init _ _) as [st h]. do 2 eexists.
    split; [reflexivity|]. split; [reflexivity|]. apply status_to_ret_spec.
  - intros data len. rewrite (we_digest_update_eq prim w d data len Hd).
    destruct (hp_update _ _ _ _) as [st h]. do 2 eexists.
    split; [reflexivity|]. split; [reflexivity|]. apply status_to_ret_spec.
  - rewrite (we_digest_final_eq prim w d Hd).
    destruct (hp_final _ _) as [[st h] out]. do 2 eexists.
    split; [reflexivity|]. split; [reflexivity|]. apply status_to_ret_spec.
Qed.

Lemma adapter_ops_return_engine_status_witness :
  md_data w0 = Some d0 /\
  (exists r w', Generic.init_of prim_fail WC_HASH_TYPE_SHA512 w0 = Some (r, w') /\
     calls w' = calls w0 ++ [C_HashInit WC_HASH_TYPE_SHA512] /\
     (r = 1 <-> fst (hp_init (prim_fail WC_HASH_TYPE_SHA512) []) = 0) /\
     (r = 0 <-> fst (hp_init (prim_fail WC_HASH_TYPE_SHA512) []) <> 0)).
Proof.
  split; [reflexivity|].
  exact (proj1 (adapter_ops_return_engine_status prim_fail w0 d0 eq_refl)
           WC_HASH_TYPE_SHA512).
Defined.

(** C8.  No sequence of update, final and cleanup calls changes the
    session's [hashType]: the context data stays present and keeps its tag. *)
Theorem run_ops_keep_hashType {S} (prim : wc_HashType -> HashPrim S)
  (os : list Generic.op) (w w' : World (Generic.we_Digest S)) d rs :
  md_data w = Some d ->
  Generic.run_ops prim os w = Some (rs, w') ->
  exists d', md_data w' = Some d' /\ Generic.hashType d' = Generic.hashType d.
Proof.
  revert w d rs. induction os as [|o os IH]; intros w d rs Hd Hrun.
  - cbn in Hrun. injection Hrun as _ <-. eauto.
  - cbn in Hrun. unfold mbind at 1 in Hrun.
    destruct (Generic.run_op prim o w) as [[r w1]|] eqn:E1; [|discriminate].
    destruct (run_op_keeps_hashType prim o w w1 d r Hd E1) as [d1 [Hd1 Ht1]].
    unfold mbind in Hrun.
    destruct (Generic.run_ops prim os w1) as [[rs1 w2]|] eqn:E2; [|discriminate].
    unfold mret in Hrun. injection Hrun as _ <-.
    destruct (IH w1 d1 rs1 Hd1 E2) as [d2 [Hd2 Ht2]].
    exists d2; split; [exact Hd2 | congruence].
Qed.

Lemma run_ops_keep_hashType_witness :
  md_data w0 = Some d0 /\
  Generic.run_ops prim0 ops0 w0 = Some ([1; 1; 1; 1], ops0_world) /\
  exists d', md_data ops0_world = Some d' /\
             Generic.hashType d' = WC_HASH_TYPE_SHA384.
Proof.
  split; [reflexivity|]. split; [vm_compute; reflexivity|].
  apply (run_ops_keep_hashType prim0 ops0 w0 ops0_world d0 [1; 1; 1; 1]);
    [reflexivity | vm_compute; reflexivity].
Defined.

(** C9.  Cleanup of a context whose [md_data] is NULL returns 1 and leaves
    the context untouched: no [wc_HashFree] call is made. *)
Theorem cleanup_null_md_data {S} (prim : wc_HashType -> HashPrim S)
  (fips_v1 : bool) (w : World (Generic.we_Digest S)) :
  md_data w = None ->
  Generic.we_digest_cleanup prim fips_v1 w = Some (1, w).
Proof.
  intros Hn. destruct fips_v1; [reflexivity|].
  unfold Generic.we_digest_cleanup. unfold_m. rewrite Hn. reflexivity.
Qed.

Lemma cleanup_null_md_data_witness :
  md_data w_null = None /\ Generic.we_digest_cleanup prim0 false w_null = Some (1, w_null).
Proof.
  split; [reflexivity|]. apply cleanup_null_md_data; reflexivity.
Defined.

(** C10.  Each generic initialiser writes its tag into [hashType] and then
    calls [wc_HashInit] with that tag; whatever [wc_HashInit] reports, the
    context data afterwards carries the tag, including when init returns 0. *)
Theorem init_sets_hashType_before_HashInit {S} (prim : wc_HashType -> HashPrim S)
  (t : wc_HashType) (w : World (Generic.we_Digest S)) d :
  md_data w = Some d ->
  exists r d',
    Generic.init_of prim t w =
      Some (r, mk_World (Some d') (md_out w) (calls w ++ [C_HashInit t])) /\
    Generic.hashType d' = t /\
    (r = 0 <-> fst (hp_init (prim t) (Generic.hash d)) <> 0).
Proof.
  intros Hd. rewrite init_of_we_hash_init, (we_hash_init_eq prim w d t Hd).
  destruct (hp_init _ _) as [st h]. do 2 eexists.
  split; [reflexivity|]. split; [reflexivity|]. apply status_to_ret_spec.
Qed.

Lemma init_sets_hashType_before_HashInit_witness :
  md_data w0 = Some d0 /\
  exists r d',
    Generic.init_of prim_fail WC_HASH_TYPE_SHA3_512 w0 =
      Some (r, mk_World (Some d') [] [C_HashInit WC_HASH_TYPE_SHA3_512]) /\
    Generic.hashType d' = WC_HASH_TYPE_SHA3_512 /\
    (r = 0 <-> fst (hp_init (prim_fail WC_HASH_TYPE_SHA3_512) []) <> 0).
Proof.
  split; [reflexivity|].
  exact (init_sets_hashType_before_HashInit prim_fail WC_HASH_TYPE_SHA3_512 w0 d0 eq_refl).
Defined.

(** ** Cleanup results *)

Lemma direct_cleanup_returns_1 {S} (sha : HashPrim S) (w : World S) :
  exists w', Direct.we_sha256_cleanup sha w = Some (1, w').
Proof.
  unfold Direct.we_sha256_cleanup, Direct.wc_Sha256Free. unfold_m. cbn.
  destruct (md_data w) as [s|]; cbn; [destruct (hp_free sha s)|]; eexists; reflexivity.
Qed.

(** C4 (amended).  The fixed-function SHA-256 cleanup always returns 1.
    The generic cleanup returns 1 in a FIPS v1 build and when [md_data] is
    NULL; otherwise it returns 1 exactly when [wc_HashFree] reports 0 and 0
    when [wc_HashFree] reports an error. *)
Theorem cleanup_result_cases {S} (prim : wc_HashType -> HashPrim S) (sha : HashPrim S) :
  (forall w : World S, exists w', Direct.we_sha256_cleanup sha w = Some (1, w'))
  /\ (forall w : World (Generic.we_Digest S),
        Generic.we_digest_cleanup prim true w = Some (1, w))
  /\ (forall w : World (Generic.we_Digest S),
        md_data w = None -> Generic.we_digest_cleanup prim false w = Some (1, w))
  /\ (forall (w : World (Generic.we_Digest S)) d,
        md_data w = Some d ->
        exists r w', Generic.we_digest_cleanup prim false w = Some (r, w') /\
          (r = 1 <-> fst (hp_free (prim (Generic.hashType d)) (Generic.hash d)) = 0) /\
          (r = 0 <-> fst (hp_free (prim (Generic.hashType d)) (Generic.hash d)) <> 0)).
Proof.
  split; [|split; [|split]].
  - intros w. apply direct_cleanup_returns_1.
  - intros w. apply we_digest_cleanup_fips_v1.
  - intros w Hn. unfold Generic.we_digest_cleanup. unfold_m. rewrite Hn. reflexivity.
  - intros w d Hd. rewrite (we_digest_cleanup_eq prim w d Hd).
    destruct (hp_free _ _) as [st h]. do 2 eexists.
    split; [reflexivity|]. apply status_to_ret_spec.
Qed.

Lemma cleanup_result_cases_witness :
  md_data w0 = Some d0 /\
  exists r w', Generic.we_digest_cleanup prim_fail false w0 = Some (r, w') /\
    (r = 1 <-> fst (hp_free (prim_fail WC_HASH_TYPE_SHA384) []) = 0) /\
    (r = 0 <-> fst (hp_free (prim_fail WC_HASH_TYPE_SHA384) []) <> 0).
Proof.
  split; [reflexivity|].
  exact (proj2 (proj2 (proj2 (cleanup_result_cases prim_fail (prim_fail WC_HASH_TYPE_SHA256))))
           w0 d0 eq_refl).
Defined.

(** C4 counterexample: a SHA-384 session whose [wc_HashFree] reports -1;
    the generic cleanup returns 0. *)
Lemma cleanup_surfaces_free_error :
  Generic.we_digest_cleanup prim_fail false w0 =
  Some (0, mk_World (Some d0) [] [C_HashFree WC_HASH_TYPE_SHA384]).
Proof. reflexivity. Qed.

(** ** Chunking and the [(word32)len] cast *)

Lemma update_len_wraps (H : wc_HashType -> list byte -> list byte) t (D : list byte) :
  Z.of_nat (length D) = 2 ^ 32 ->
  digest_whole H t D = Some (H t []) /\ digest_split H t D 1 = Some (H t D).
Proof.
  intros Hlen. split.
  - unfold digest_whole. rewrite Hlen. reflexivity.
  - unfold digest_split.
    assert (Hw : word32_of (Z.of_nat (length D - 1)) = Z.of_nat (length D - 1)).
    { unfold word32_of. apply Z.mod_small. lia. }
    cbn - [firstn skipn word32_of].
    rewrite Hw, Nat2Z.id.
    rewrite (firstn_all2 (n := length D - 1)) by (rewrite length_skipn; lia).
    change (word32_of 1) with 1. cbn - [skipn].
    destruct D as [|b D']; [cbn in Hlen; lia|]. reflexivity.
Qed.

(** C2 (code defect).  On the 2^32-byte buffer [data_4GiB], a single update
    passes [(word32)2^32 = 0] to [wc_HashUpdate], so the engine is fed no
    bytes and final yields the digest of the empty message; splitting the
    same buffer at 1 feeds every byte. *)
Theorem update_4GiB_feeds_no_bytes (H : wc_HashType -> list byte -> list byte) t :
  Z.of_nat (length data_4GiB) = 2 ^ 32 /\
  digest_whole H t data_4GiB = Some (H t []) /\
  digest_split H t data_4GiB 1 = Some (H t data_4GiB).
Proof.
  assert (Hlen : Z.of_nat (length data_4GiB) = 2 ^ 32).
  { unfold data_4GiB. rewrite repeat_length, Z2Nat.id; [reflexivity | lia]. }
  split; [exact Hlen|]. apply update_len_wraps; exact Hlen.
Qed.

(** ** Fixed-function and generic SHA-256 paths *)

Section DirectVsGeneric.

Context {S : Type} (prim : wc_HashType -> HashPrim S).

Definition sha256_prim := prim WC_HASH_TYPE_SHA256.

Lemma direct_init_eq (w : World S) s :
  md_data w = Some s ->
  Direct.we_sha256_init sha256_prim w =
  let '(st, s') := hp_init sha256_prim s in
  Some (status_to_ret st, mk_World (Some s') (md_out w) (calls w ++ [C_InitSha256])).
Proof.
  intros Hd. unfold Direct.we_sha256_init, Direct.wc_InitSha256. unfold_m.
  destruct w as [md mo cs]; cbn in Hd; subst md; cbn.
  destruct (hp_init _ _); reflexivity.
Qed.

Lemma direct_update_eq (w : World S) s data len :
  md_data w = Some s ->
  Direct.we_sha256_update sha256_prim data len w =
  let '(st, s') := hp_update sha256_prim s data (word32_of len) in
  Some (status_to_ret st,
        mk_World (Some s') (md_out w) (calls w ++ [C_Sha256Update data (word32_of len)])).
Proof.
  intros Hd. unfold Direct.we_sha256_update, Direct.wc_Sha256Update. unfold_m.
  destruct w as [md mo cs]; cbn in Hd; subst md; cbn.
  destruct (hp_update _ _ _ _); reflexivity.
Qed.

Lemma direct_final_eq (w : World S) s :
  md_data w = Some s ->
  Direct.we_sha256_final sha256_prim w =
  let '(st, s', out) := hp_final sha256_prim s in
  Some (status_to_ret st, mk_World (Some s') out (calls w ++ [C_Sha256Final])).
Proof.
  intros Hd. unfold Direct.we_sha256_final, Direct.wc_Sha256Final. unfold_m.
  destruct w as [md mo cs]; cbn in Hd; subst md; cbn.
  destruct (hp_final _ _) as [[st s'] out]; reflexivity.
Qed.

(** The generic context holds a SHA-256 session whose engine state is the
    direct context's state. *)
Definition sim (wg : World (Generic.we_Digest S)) (wd : World S) : Prop :=
  exists dg, md_data wg = Some dg /\
             Generic.hashType dg = WC_HASH_TYPE_SHA256 /\
             md_data wd = Some (Generic.hash dg).

Lemma sim_init wg wd dg :
  md_data wg = Some dg -> md_data wd = Some (Generic.hash dg) ->
  exists r wg' wd',
    Generic.we_hash_init prim WC_HASH_TYPE_SHA256 wg = Some (r, wg') /\
    Direct.we_sha256_init sha256_prim wd = Some (r, wd') /\ sim wg' wd'.
Proof.
  intros Hg Hd. rewrite (we_hash_init_eq prim wg dg _ Hg), (direct_init_eq wd _ Hd).
  unfold sha256_prim. destruct (hp_init _ _) as [st h].
  do 3 eexists. split; [reflexivity|]. split; [reflexivity|].
  eexists; repeat split.
Qed.

Lemma sim_update wg wd data len :
  sim wg wd ->
  exists r wg' wd',
    Generic.we_digest_update prim data len wg = Some (r, wg') /\
    Direct.we_sha256_update sha256_prim data len wd = Some (r, wd') /\ sim wg' wd'.
Proof.
  intros [dg [Hg [Ht Hd]]].
  rewrite (we_digest_update_eq prim wg dg data len Hg), (direct_update_eq wd _ data len Hd).
  rewrite Ht. unfold sha256_prim. destruct (hp_update _ _ _ _) as [st h].
  do 3 eexists. split; [reflexivity|]. split; [reflexivity|].
  eexists; repeat split.
Qed.

Lemma sim_run_updates chunks wg wd :
  sim wg wd ->
  exists rs wg' wd',
    Generic.run_updates prim chunks wg = Some (rs, wg') /\
    Direct.run_updates sha256_prim chunks wd = Some (rs, wd') /\ sim wg' wd'.
Proof.
  revert wg wd. induction chunks as [|[data len] cs IH]; intros wg wd Hs.
  - do 3 eexists. split; [reflexivity|]. split; [reflexivity|]. exact Hs.
  - destruct (sim_update wg wd data len Hs) as [r [wg1 [wd1 [Eg [Ed Hs1]]]]].
    destruct (IH wg1 wd1 Hs1) as [rs [wg2 [wd2 [Eg2 [Ed2 Hs2]]]]].
    exists (r :: rs), wg2, wd2. cbn. unfold mbind.
    rewrite Eg, Ed, Eg2, Ed2. split; [reflexivity|]. split; [reflexivity|]. exact Hs2.
Qed.

Lemma sim_final wg wd :
  sim wg wd ->
  exists r wg' wd',
    Generic.we_digest_final prim wg = Some (r, wg') /\
    Direct.we_sha256_final sha256_prim wd = Some (r, wd') /\ md_out wg' = md_out wd'.
Proof.
  intros [dg [Hg [Ht Hd]]].
  rewrite (we_digest_final_eq prim wg dg Hg), (direct_final_eq wd _ Hd).
  rewrite Ht. unfold sha256_prim. destruct (hp_final _ _) as [[st h] out].
  do 3 eexists. split; [reflexivity|]. split; [reflexivity|]. reflexivity.
Qed.

End DirectVsGeneric.

(** C3.  Over wolfCrypt's dispatch (the [WC_HASH_TYPE_SHA256] entry points
    are the SHA-256 primitives), the fixed-function path and the generic
    path, started from the same engine state and fed the same chunks, return
    the same results at every step and write the same digest bytes. *)
Theorem direct_and_generic_sha256_agree {S} (prim : wc_HashType -> HashPrim S)
  (chunks : list (list byte * Z)) (wg : World (Generic.we_Digest S)) (wd : World S) dg :
  md_data wg = Some dg -> md_data wd = Some (Generic.hash dg) ->
  exists rs wg' wd',
    Generic.sha256_digest prim chunks wg = Some (rs, wg') /\
    Direct.sha256_digest (prim WC_HASH_TYPE_SHA256) chunks wd = Some (rs, wd') /\
    md_out wg' = md_out wd'.
Proof.
  intros Hg Hd.
  destruct (sim_init prim wg wd dg Hg Hd) as [r0 [wg1 [wd1 [Eg1 [Ed1 Hs1]]]]].
  destruct (sim_run_updates prim chunks wg1 wd1 Hs1) as [rs [wg2 [wd2 [Eg2 [Ed2 Hs2]]]]].
  destruct (sim_final prim wg2 wd2 Hs2) as [rf [wg3 [wd3 [Eg3 [Ed3 Ho]]]]].
  exists (r0 :: rs ++ [rf]), wg3, wd3.
  unfold Generic.sha256_digest, Direct.sha256_digest, Generic.we_sha256_init, mbind, mret.
  unfold sha256_prim in *. rewrite Eg1, Ed1, Eg2, Ed2, Eg3, Ed3. auto.
Qed.

Lemma direct_and_generic_sha256_agree_witness :
  md_data w0 = Some d0 /\ md_data (mk_World (Some ([] : list byte)) [] []) = Some (Generic.hash d0) /\
  exists rs wg' wd',
    Generic.sha256_digest prim0 [([Byte.x61; Byte.x62], 2); ([Byte.x63], 1)] w0 = Some (rs, wg') /\
    Direct.sha256_digest (prim0 WC_HASH_TYPE_SHA256) [([Byte.x61; Byte.x62], 2); ([Byte.x63], 1)]
      (mk_World (Some []) [] []) = Some (rs, wd') /\
    md_out wg' = md_out wd'.
Proof.
  split; [reflexivity|]. split; [reflexivity|].
  exact (direct_and_generic_sha256_agree prim0 _ w0 (mk_World (Some []) [] []) d0 eq_refl eq_refl).
Defined.

(** ** Method descriptors *)

Lemma wc_HashType_eqb_refl t : wc_HashType_eqb t t = true.
Proof. destruct t; reflexivity. Qed.

Lemma heap_lookup_remove p h : Registry.heap_lookup p (Registry.heap_remove p h) = None.
Proof.
  induction h as [|[q r] h IH]; cbn; [reflexivity|].
  destruct (Nat.eqb p q) eqn:E; [exact IH|]. cbn. rewrite E. exact IH.
Qed.

Lemma result_size_of_digest_size t :
  Registry.result_size_of t = wc_HashGetDigestSize t.
Proof. destruct t; reflexivity. Qed.

(** The outcomes of [we_init_*_meth]: allocation failure leaves the global
    NULL; otherwise the global points at the new record, which is either
    complete (result 1) or freed (result 0). *)
Lemma we_init_md_meth_cases ok sz t w :
  let '(ret, w') := Registry.we_init_md_meth ok sz t w in
  (ok Registry.S_meth_new = false ->
     ret = 0 /\ Registry.md_global w' t = None /\ Registry.heap w' = Registry.heap w) /\
  (ok Registry.S_meth_new = true ->
     Registry.md_global w' t = Some (Registry.next_ptr w) /\
     ((ret = 1 /\
       Registry.heap_lookup (Registry.next_ptr w) (Registry.heap w') =
       Some (Registry.mk_EVP_MD (Registry.nid_of t) (Some (Registry.F_init t))
               (Some Registry.F_digest_update) (Some Registry.F_digest_final)
               (Some Registry.F_digest_cleanup) (Registry.result_size_of t) sz)) \/
      (ret = 0 /\
       Registry.heap_lookup (Registry.next_ptr w) (Registry.heap w') = None))).
Proof.
  unfold Registry.we_init_md_meth, Registry.EVP_MD_meth_new.
  destruct (ok Registry.S_meth_new) eqn:E0.
  - cbn. rewrite wc_HashType_eqb_refl. cbn.
    unfold Registry.we_init_digest_meth, Registry.EVP_MD_meth_set_init,
      Registry.EVP_MD_meth_set_result_size, Registry.EVP_MD_meth_set_update,
      Registry.EVP_MD_meth_set_final, Registry.EVP_MD_meth_set_cleanup,
      Registry.EVP_MD_meth_set_app_datasize, Registry.meth_set,
      Registry.EVP_MD_meth_free.
    cbn. rewrite ?Nat.eqb_refl.
    repeat (match goal with |- context [ok ?s] => destruct (ok s) end; cbn;
            rewrite ?Nat.eqb_refl, ?wc_HashType_eqb_refl; cbn);
    split; intros; try discriminate;
    rewrite ?Nat.eqb_refl, ?wc_HashType_eqb_refl;
    (split; [reflexivity|]);
    first [left; split; reflexivity | right; split; [reflexivity | apply heap_lookup_remove]].
  - cbn. rewrite wc_HashType_eqb_refl. cbn.
    split; intros; [|discriminate]. rewrite wc_HashType_eqb_refl.
    split; [reflexivity|]. split; reflexivity.
Qed.

Lemma prim0_final_size t h h' out :
  hp_final (prim0 t) h = (0, h', out) -> Z.of_nat (length out) = wc_HashGetDigestSize t.
Proof.
  cbn. intros E. injection E as _ <-. unfold H_sized.
  rewrite repeat_length. destruct t; reflexivity.
Qed.

(** C6.  When [we_init_*_meth] for type [t] succeeds, the global points at a
    record whose init binds tag [t] and whose result size is the digest
    size of [t]; and for any session started by that init, after any
    updates, a successful final writes exactly that many bytes (given that
    a successful [wc_HashFinal] writes [wc_HashGetDigestSize] bytes). *)
Theorem registered_result_size_matches_final {S} (prim : wc_HashType -> HashPrim S)
  (Hfinal : forall t h h' out, hp_final (prim t) h = (0, h', out) ->
                               Z.of_nat (length out) = wc_HashGetDigestSize t)
  ok sz t w w' :
  Registry.we_init_md_meth ok sz t w = (1, w') ->
  exists q rec,
    Registry.md_global w' t = Some q /\
    Registry.heap_lookup q (Registry.heap w') = Some rec /\
    Registry.md_init rec = Some (Registry.F_init t) /\
    Registry.md_result_size rec = wc_HashGetDigestSize t /\
    (forall chunks (ws ws1 ws2 ws3 : World (Generic.we_Digest S)) d r rs,
        md_data ws = Some d ->
        Generic.init_of prim t ws = Some (r, ws1) ->
        Generic.run_updates prim chunks ws1 = Some (rs, ws2) ->
        Generic.we_digest_final prim ws2 = Some (1, ws3) ->
        Z.of_nat (length (md_out ws3)) = Registry.md_result_size rec).
Proof.
  intros Hreg. pose proof (we_init_md_meth_cases ok sz t w) as Hc.
  rewrite Hreg in Hc. destruct Hc as [Hfail Hnew].
  destruct (ok Registry.S_meth_new) eqn:E0;
    [| destruct (Hfail eq_refl) as [Habs _]; discriminate].
  destruct (Hnew eq_refl) as [Hg [[_ Hl] | [Habs _]]]; [|discriminate].
  eexists; eexists. split; [exact Hg|]. split; [exact Hl|].
  cbn. split; [reflexivity|]. split; [apply result_size_of_digest_size|].
  intros chunks ws ws1 ws2 ws3 d r rs Hd Hinit Hupd Hfin.
  rewrite init_of_we_hash_init, (we_hash_init_eq prim ws d t Hd) in Hinit.
  destruct (hp_init (prim t) (Generic.hash d)) as [st0 h0].
  injection Hinit as _ <-.
  edestruct (run_updates_keeps_hashType prim chunks) as [d2 [Hd2 Ht2]];
    [| exact Hupd |].
  { reflexivity. }
  cbn in Ht2.
  rewrite (we_digest_final_eq prim ws2 d2 Hd2) in Hfin.
  destruct (hp_final (prim (Generic.hashType d2)) (Generic.hash d2))
    as [[st h] out] eqn:Ef.
  injection Hfin as Hst <-. cbn.
  apply (proj1 (status_to_ret_spec st)) in Hst. subst st.
  rewrite result_size_of_digest_size, <- Ht2. exact (Hfinal _ _ _ _ Ef).
Qed.

Lemma registered_result_size_matches_final_witness :
  Registry.we_init_md_meth ok_all 100 WC_HASH_TYPE_SHA3_224 Registry.empty_world
    = (1, snd reg_sha3_224) /\
  exists q rec,
    Registry.md_global (snd reg_sha3_224) WC_HASH_TYPE_SHA3_224 = Some q /\
    Registry.heap_lookup q (Registry.heap (snd reg_sha3_224)) = Some rec /\
    Registry.md_result_size rec = 28.
Proof.
  split; [reflexivity|].
  destruct (registered_result_size_matches_final prim0 prim0_final_size ok_all 100
              WC_HASH_TYPE_SHA3_224 Registry.empty_world (snd reg_sha3_224) eq_refl)
    as [q [rec [Hg [Hl [_ [Hs _]]]]]].
  exists q, rec. split; [exact Hg|]. split; [exact Hl|]. exact Hs.
Defined.

(** C7 (code defect).  When [EVP_MD_meth_new] succeeds but a later binding
    step fails, [we_init_*_meth] returns 0 and frees the record, yet the
    global [we_*_md] keeps pointing at the freed record instead of being
    reset to NULL. *)
Theorem failed_registration_keeps_dangling_global ok sz t w :
  ok Registry.S_meth_new = true ->
  fst (Registry.we_init_md_meth ok sz t w) <> 1 ->
  fst (Registry.we_init_md_meth ok sz t w) = 0 /\
  Registry.md_global (snd (Registry.we_init_md_meth ok sz t w)) t = Some (Registry.next_ptr w) /\
  Registry.heap_lookup (Registry.next_ptr w)
    (Registry.heap (snd (Registry.we_init_md_meth ok sz t w))) = None.
Proof.
  intros E0 Hret. pose proof (we_init_md_meth_cases ok sz t w) as Hc.
  destruct (Registry.we_init_md_meth ok sz t w) as [ret w'].
  cbn in *. destruct Hc as [_ Hnew].
  destruct (Hnew E0) as [Hg [[Hr _] | [Hr Hl]]]; [contradiction|].
  split; [exact Hr|]. split; [exact Hg | exact Hl].
Qed.

Lemma failed_registration_keeps_dangling_global_witness :
  ok_set_init_fails Registry.S_meth_new = true /\
  fst (Registry.we_init_sha256_meth ok_set_init_fails 100 Registry.empty_world) <> 1 /\
  fst (Registry.we_init_sha256_meth ok_set_init_fails 100 Registry.empty_world) = 0 /\
  Registry.md_global (snd (Registry.we_init_sha256_meth ok_set_init_fails 100
                             Registry.empty_world)) WC_HASH_TYPE_SHA256 = Some 0%nat /\
  Registry.heap_lookup 0
    (Registry.heap (snd (Registry.we_init_sha256_meth ok_set_init_fails 100
                           Registry.empty_world))) = None.
Proof.
  split; [reflexivity|]. split; [vm_compute; discriminate|].
  apply (failed_registration_keeps_dangling_global ok_set_init_fails 100
           WC_HASH_TYPE_SHA256 Registry.empty_world);
    [reflexivity | vm_compute; discriminate].
Defined.

(** * Further properties of the adapter *)

Lemma word32_of_small (n : Z) : 0 <= n < 2 ^ 32 -> word32_of n = n.
Proof. intros Hn. unfold word32_of. apply Z.mod_small. exact Hn. Qed.

Lemma run_updates_concat (H : wc_HashType -> list byte -> list byte)
  (w : World (Generic.we_Digest (list byte))) h t chunks :
  md_data w = Some (Generic.mk_we_Digest h t) -> lens_fit chunks ->
  Generic.run_updates (concat_prim H) chunks w =
  Some (map (fun _ => 1) chunks,
        mk_World (Some (Generic.mk_we_Digest (h ++ concat (map fed chunks)) t)) (md_out w)
          (calls w ++ map (fun c => C_HashUpdate t (fst c) (snd c)) chunks)).
Proof.
  revert w h. induction chunks as [|[data len] cs IH]; intros w h Hd Hfit.
  - destruct w as [md mo cl]; cbn in Hd; subst md. cbn.
    rewrite !app_nil_r. reflexivity.
  - inversion Hfit as [|? ? Hc Hcs]; subst. cbn [fst snd] in Hc.
    cbn [Generic.run_updates]. unfold mbind at 1.
    rewrite (we_digest_update_eq _ w _ data len Hd). cbn [Generic.hashType Generic.hash].
    rewrite (word32_of_small len Hc). cbn [concat_prim hp_update].
    unfold mbind. erewrite IH; [| reflexivity | exact Hcs]. cbn.
    rewrite <- !app_assoc. reflexivity.
Qed.

(** X1.  Over the reference engine, a session of any type [t] fed chunks
    whose lengths fit in 32 bits returns 1 at every step and its digest is
    [H t] of the concatenation of the chunks' bytes. *)
Theorem digest_session_hashes_fed_bytes (H : wc_HashType -> list byte -> list byte)
  t chunks (w : World (Generic.we_Digest (list byte))) d :
  md_data w = Some d -> lens_fit chunks ->
  exists w',
    digest_session (concat_prim H) t chunks w =
      Some (1 :: map (fun _ => 1) chunks ++ [1], w') /\
    md_out w' = H t (concat (map fed chunks)).
Proof.
  intros Hd Hfit. unfold digest_session. unfold mbind at 1.
  rewrite init_of_we_hash_init, (we_hash_init_eq _ w d t Hd). cbn [concat_prim hp_init].
  unfold mbind at 1. erewrite (run_updates_concat H _ [] t chunks); [| reflexivity | exact Hfit].
  unfold mbind. erewrite we_digest_final_eq; [| reflexivity]. cbn.
  eexists; split; reflexivity.
Qed.

Lemma digest_session_hashes_fed_bytes_witness :
  md_data w0 = Some d0 /\ lens_fit [([Byte.x61; Byte.x62; Byte.x63], 2); ([Byte.x64], 1)] /\
  exists w',
    digest_session (concat_prim H_sized) WC_HASH_TYPE_SHA3_256
      [([Byte.x61; Byte.x62; Byte.x63], 2); ([Byte.x64], 1)] w0 = Some ([1; 1; 1; 1], w') /\
    md_out w' = H_sized WC_HASH_TYPE_SHA3_256 [Byte.x61; Byte.x62; Byte.x64].
Proof.
  assert (Hfit : lens_fit [([Byte.x61; Byte.x62; Byte.x63], 2); ([Byte.x64], 1)]).
  { repeat constructor; cbn; lia. }
  split; [reflexivity|]. split; [exact Hfit|].
  exact (digest_session_hashes_fed_bytes H_sized WC_HASH_TYPE_SHA3_256 _ w0 d0 eq_refl Hfit).
Defined.

(** X2.  Below 4 GiB the 32-bit cast loses nothing: for data of length
    m < 2^32 and any split point n <= m, update(data[0:n]);
    update(data[n:m]); final gives the digest of one update of the whole. *)
Theorem chunking_invariant_below_4GiB (H : wc_HashType -> list byte -> list byte)
  t (data : list byte) (n : nat) :
  (n <= length data)%nat -> Z.of_nat (length data) < 2 ^ 32 ->
  digest_split H t data n = digest_whole H t data.
Proof.
  intros Hn Hm. unfold digest_split, digest_whole.
  cbn - [firstn skipn word32_of].
  rewrite !word32_of_small by lia. rewrite !Nat2Z.id.
  rewrite (firstn_all2 (n := n)) by (rewrite length_firstn; lia).
  rewrite (firstn_all2 (n := length data - n)) by (rewrite length_skipn; lia).
  rewrite firstn_all, firstn_skipn. reflexivity.
Qed.

Lemma chunking_invariant_below_4GiB_witness :
  (1 <= length [Byte.x61; Byte.x62; Byte.x63])%nat /\
  Z.of_nat (length [Byte.x61; Byte.x62; Byte.x63]) < 2 ^ 32 /\
  digest_split H_sized WC_HASH_TYPE_SHA512 [Byte.x61; Byte.x62; Byte.x63] 1 =
  digest_whole H_sized WC_HASH_TYPE_SHA512 [Byte.x61; Byte.x62; Byte.x63].
Proof.
  split; [cbn; lia|]. split; [cbn; lia|].
  apply chunking_invariant_below_4GiB; cbn; lia.
Defined.

Section NullAndOutput.

Context {S : Type} (prim : wc_HashType -> HashPrim S).

Lemma null_init_fault t (w : World (Generic.we_Digest S)) :
  md_data w = None -> Generic.init_of prim t w = None.
Proof.
  intros Hn. rewrite init_of_we_hash_init.
  unfold Generic.we_hash_init. unfold_m. rewrite Hn. reflexivity.
Qed.

Lemma null_update_fault data len (w : World (Generic.we_Digest S)) :
  md_data w = None -> Generic.we_digest_update prim data len w = None.
Proof. intros Hn. unfold Generic.we_digest_update. unfold_m. rewrite Hn. reflexivity. Qed.

Lemma null_final_fault (w : World (Generic.we_Digest S)) :
  md_data w = None -> Generic.we_digest_final prim w = None.
Proof. intros Hn. unfold Generic.we_digest_final. unfold_m. rewrite Hn. reflexivity. Qed.

Lemma run_op_keeps_output o (w w' : World (Generic.we_Digest S)) r :
  o <> Generic.Op_final ->
  Generic.run_op prim o w = Some (r, w') -> md_out w' = md_out w.
Proof.
  intros Hnf Hrun. destruct o as [data len | | [|]];
    cbv beta iota delta [Generic.run_op] in Hrun; [| contradiction | |].
  - destruct (md_data w) as [d|] eqn:Hd.
    + rewrite (we_digest_update_eq prim w d data len Hd) in Hrun.
      destruct (hp_update _ _ _ _). injection Hrun as _ <-. reflexivity.
    + rewrite (null_update_fault data len w Hd) in Hrun. discriminate.
  - rewrite we_digest_cleanup_fips_v1 in Hrun. injection Hrun as _ <-. reflexivity.
  - destruct (md_data w) as [d|] eqn:Hd.
    + rewrite (we_digest_cleanup_eq prim w d Hd) in Hrun.
      destruct (hp_free _ _). injection Hrun as _ <-. reflexivity.
    + unfold Generic.we_digest_cleanup in Hrun. unfold_m. rewrite Hd in Hrun.
      injection Hrun as _ <-. reflexivity.
Qed.

End NullAndOutput.

(** X3.  Only final writes the caller's output buffer: any sequence of
    updates and cleanups (in either build) leaves it as it was, so a
    digest produced by final survives later cleanups. *)
Theorem non_final_ops_keep_output {S} (prim : wc_HashType -> HashPrim S)
  (os : list Generic.op) (w w' : World (Generic.we_Digest S)) rs :
  ~ In Generic.Op_final os ->
  Generic.run_ops prim os w = Some (rs, w') -> md_out w' = md_out w.
Proof.
  revert w rs. induction os as [|o os IH]; intros w rs Hnf Hrun.
  - cbn in Hrun. injection Hrun as _ <-. reflexivity.
  - cbn in Hrun. unfold mbind at 1 in Hrun.
    destruct (Generic.run_op prim o w) as [[r w1]|] eqn:E1; [|discriminate].
    unfold mbind in Hrun.
    destruct (Generic.run_ops prim os w1) as [[rs1 w2]|] eqn:E2; [|discriminate].
    unfold mret in Hrun. injection Hrun as _ <-.
    assert (Ho : o <> Generic.Op_final) by (intros ->; apply Hnf; left; reflexivity).
    rewrite (IH w1 rs1 (fun Hin => Hnf (or_intror Hin)) E2).
    exact (run_op_keeps_output prim o w w1 r Ho E1).
Qed.

Lemma non_final_ops_keep_output_witness :
  ~ In Generic.Op_final cleanup_ops /\
  Generic.run_ops prim0 cleanup_ops after_final_world = Some ([1; 1; 1], cleanup_ops_world) /\
  md_out cleanup_ops_world = md_out after_final_world.
Proof.
  assert (Hnf : ~ In Generic.Op_final cleanup_ops).
  { cbn. intros [H | [H | [H | []]]]; discriminate. }
  assert (Hrun : Generic.run_ops prim0 cleanup_ops after_final_world =
                 Some ([1; 1; 1], cleanup_ops_world)) by (vm_compute; reflexivity).
  split; [exact Hnf|]. split; [exact Hrun|].
  exact (non_final_ops_keep_output prim0 cleanup_ops _ _ _ Hnf Hrun).
Defined.

(** X4.  Of the generic operations only cleanup checks [md_data] for NULL:
    every initialiser, update and final dereference it unguarded, so on a
    NULL [md_data] they fault. *)
Theorem generic_ops_null_md_data_fault {S} (prim : wc_HashType -> HashPrim S)
  t data len (w : World (Generic.we_Digest S)) :
  md_data w = None ->
  Generic.init_of prim t w = None /\
  Generic.we_digest_update prim data len w = None /\
  Generic.we_digest_final prim w = None /\
  Generic.we_digest_cleanup prim false w = Some (1, w).
Proof.
  intros Hn. split; [apply null_init_fault; exact Hn|].
  split; [apply null_update_fault; exact Hn|].
  split; [apply null_final_fault; exact Hn|].
  unfold Generic.we_digest_cleanup. unfold_m. rewrite Hn. reflexivity.
Qed.

Lemma generic_ops_null_md_data_fault_witness :
  md_data w_null = None /\
  Generic.init_of prim0 WC_HASH_TYPE_SHA256 w_null = None /\
  Generic.we_digest_update prim0 [Byte.x00] 1 w_null = None /\
  Generic.we_digest_final prim0 w_null = None /\
  Generic.we_digest_cleanup prim0 false w_null = Some (1, w_null).
Proof.
  split; [reflexivity|]. apply generic_ops_null_md_data_fault. reflexivity.
Defined.

(** X5.  The fixed-function SHA-256 init, update and final each make exactly
    one wolfCrypt SHA-256 call (update with the length cast to [word32])
    and return 1 exactly when that call reports 0, and 0 otherwise. *)
Theorem direct_ops_return_engine_status {S} (sha : HashPrim S) (w : World S) s :
  md_data w = Some s ->
  (exists r w',
      Direct.we_sha256_init sha w = Some (r, w') /\
      calls w' = calls w ++ [C_InitSha256] /\
      (r = 1 <-> fst (hp_init sha s) = 0) /\ (r = 0 <-> fst (hp_init sha s) <> 0))
  /\ (forall data len, exists r w',
      Direct.we_sha256_update sha data len w = Some (r, w') /\
      calls w' = calls w ++ [C_Sha256Update data (word32_of len)] /\
      (r = 1 <-> fst (hp_update sha s data (word32_of len)) = 0) /\
      (r = 0 <-> fst (hp_update sha s data (word32_of len)) <> 0))
  /\ (exists r w',
      Direct.we_sha256_final sha w = Some (r, w') /\
      calls w' = calls w ++ [C_Sha256Final] /\
      (r = 1 <-> fst (fst (hp_final sha s)) = 0) /\
      (r = 0 <-> fst (fst (hp_final sha s)) <> 0)).
Proof.
  intros Hd. split; [|split].
  - pose proof (direct_init_eq (fun _ => sha) w s Hd) as E. unfold sha256_prim in E.
    rewrite E. destruct (hp_init sha s) as [st s']. do 2 eexists.
    split; [reflexivity|]. split; [reflexivity|]. apply status_to_ret_spec.
  - intros data len.
    pose proof (direct_update_eq (fun _ => sha) w s data len Hd) as E. unfold sha256_prim in E.
    rewrite E. destruct (hp_update sha s data _) as [st s']. do 2 eexists.
    split; [reflexivity|]. split; [reflexivity|]. apply status_to_ret_spec.
  - pose proof (direct_final_eq (fun _ => sha) w s Hd) as E. unfold sha256_prim in E.
    rewrite E. destruct (hp_final sha s) as [[st s'] out]. do 2 eexists.
    split; [reflexivity|]. split; [reflexivity|]. apply status_to_ret_spec.
Qed.

Lemma direct_ops_return_engine_status_witness :
  md_data (mk_World (Some ([] : list byte)) [] []) = Some [] /\
  exists r w',
    Direct.we_sha256_init (prim_fail WC_HASH_TYPE_SHA256) (mk_World (Some []) [] []) = Some (r, w') /\
    calls w' = [C_InitSha256] /\
    (r = 1 <-> fst (hp_init (prim_fail WC_HASH_TYPE_SHA256) []) = 0) /\
    (r = 0 <-> fst (hp_init (prim_fail WC_HASH_TYPE_SHA256) []) <> 0).
Proof.
  split; [reflexivity|].
  exact (proj1 (direct_ops_return_engine_status (prim_fail WC_HASH_TYPE_SHA256)
                  (mk_World (Some []) [] []) [] eq_refl)).
Defined.

(** * Further properties of descriptor construction *)

Lemma wc_HashType_eqb_neq t t' : t <> t' -> wc_HashType_eqb t t' = false.
Proof. intros Hne. destruct t, t'; cbn; congruence. Qed.

Lemma heap_lookup_remove_other p q h :
  q <> p -> Registry.heap_lookup q (Registry.heap_remove p h) = Registry.heap_lookup q h.
Proof.
  intros Hne. induction h as [|[k r] h IH]; cbn; [reflexivity|].
  destruct (Nat.eqb p k) eqn:E.
  - apply Nat.eqb_eq in E. subst k. apply Nat.eqb_neq in Hne. rewrite Hne. exact IH.
  - cbn. rewrite IH. reflexivity.
Qed.

Ltac reg_unfold :=
  unfold Registry.we_init_md_meth, Registry.EVP_MD_meth_new,
    Registry.we_init_digest_meth, Registry.EVP_MD_meth_set_init,
    Registry.EVP_MD_meth_set_result_size, Registry.EVP_MD_meth_set_update,
    Registry.EVP_MD_meth_set_final, Registry.EVP_MD_meth_set_cleanup,
    Registry.EVP_MD_meth_set_app_datasize, Registry.meth_set,
    Registry.EVP_MD_meth_free.

Ltac destruct_steps ok :=
  destruct (ok Registry.S_meth_new) eqn:E0, (ok Registry.S_set_init) eqn:E1,
    (ok Registry.S_set_result_size) eqn:E2, (ok Registry.S_set_update) eqn:E3,
    (ok Registry.S_set_final) eqn:E4, (ok Registry.S_set_cleanup) eqn:E5,
    (ok Registry.S_set_app_datasize) eqn:E6.

Ltac reg_simpl :=
  repeat progress (cbn; rewrite ?wc_HashType_eqb_refl, ?Nat.eqb_refl).

Ltac solve_all_ok ok :=
  first
    [ reflexivity
    | discriminate
    | (intros s; destruct s; assumption)
    | (eexists; eassumption)
    | (match goal with
       | HH : forall s, ok s = true |- _ =>
           exfalso; match goal with E : ok ?s = false |- _ =>
                      rewrite HH in E; discriminate end
       end)
    | (match goal with
       | HH : exists s, ok s = false |- _ =>
           let s := fresh "s" in let Hs := fresh "Hs" in
           destruct HH as [s Hs]; destruct s; congruence
       end) ].

(** X6.  [we_init_*_meth] returns 1 exactly when every OpenSSL step it
    makes (allocation and the six bindings) succeeds, and 0 as soon as any
    one of them fails. *)
Theorem we_init_md_meth_result ok sz t w :
  (fst (Registry.we_init_md_meth ok sz t w) = 1 <-> forall s, ok s = true) /\
  (fst (Registry.we_init_md_meth ok sz t w) = 0 <-> exists s, ok s = false).
Proof.
  reg_unfold. destruct_steps ok; reg_simpl;
    split; split; intro HH; solve_all_ok ok.
Qed.

Lemma we_init_md_meth_result_witness :
  fst (Registry.we_init_sha384_meth ok_set_init_fails 100 Registry.empty_world) = 0 /\
  exists s, ok_set_init_fails s = false.
Proof.
  assert (Hs : exists s, ok_set_init_fails s = false) by (exists Registry.S_set_init; reflexivity).
  split; [|exact Hs].
  exact (proj2 (proj2 (we_init_md_meth_result ok_set_init_fails 100 WC_HASH_TYPE_SHA384
                         Registry.empty_world)) Hs).
Defined.

(** The frame of one registration: other globals and other records are
    untouched, and the allocation cursor moves only when allocation succeeds. *)
Lemma we_init_md_meth_frame ok sz t w :
  let '(ret, w') := Registry.we_init_md_meth ok sz t w in
  (forall t', t' <> t -> Registry.md_global w' t' = Registry.md_global w t') /\
  (forall q, q <> Registry.next_ptr w ->
     Registry.heap_lookup q (Registry.heap w') = Registry.heap_lookup q (Registry.heap w)) /\
  Registry.next_ptr w' =
    (if ok Registry.S_meth_new then S (Registry.next_ptr w) else Registry.next_ptr w).
Proof.
  reg_unfold. destruct_steps ok; reg_simpl;
    (split; [intros t' Ht'; rewrite (wc_HashType_eqb_neq t t' (fun e => Ht' (eq_sym e)));
             reflexivity|]);
    (split; [|reflexivity]); intros q Hq; cbn;
    rewrite ?heap_lookup_remove_other by exact Hq;
    try (apply Nat.eqb_neq in Hq; rewrite Hq); reflexivity.
Qed.

(** X7.  One registration touches only its own algorithm: the globals of
    the other algorithms and every record other than the one it allocates
    are left as they were, whether it succeeds or fails. *)
Theorem we_init_md_meth_touches_only_own ok sz t w t' q :
  t' <> t -> q <> Registry.next_ptr w ->
  Registry.md_global (snd (Registry.we_init_md_meth ok sz t w)) t' = Registry.md_global w t' /\
  Registry.heap_lookup q (Registry.heap (snd (Registry.we_init_md_meth ok sz t w))) =
  Registry.heap_lookup q (Registry.heap w).
Proof.
  intros Ht Hq. pose proof (we_init_md_meth_frame ok sz t w) as Hf.
  destruct (Registry.we_init_md_meth ok sz t w) as [ret w']. cbn.
  destruct Hf as [Hg [Hh _]]. split; [apply Hg; exact Ht | apply Hh; exact Hq].
Qed.

Lemma we_init_md_meth_touches_only_own_witness :
  WC_HASH_TYPE_SHA3_224 <> WC_HASH_TYPE_SHA384 /\ (0 <> Registry.next_ptr (snd reg_sha3_224))%nat /\
  Registry.md_global (snd reg_two) WC_HASH_TYPE_SHA3_224 =
    Registry.md_global (snd reg_sha3_224) WC_HASH_TYPE_SHA3_224 /\
  Registry.heap_lookup 0 (Registry.heap (snd reg_two)) =
    Registry.heap_lookup 0 (Registry.heap (snd reg_sha3_224)).
Proof.
  split; [discriminate|]. split; [vm_compute; discriminate|].
  apply we_init_md_meth_touches_only_own; [discriminate | vm_compute; discriminate].
Defined.

Lemma we_init_md_meth_all_ok ok sz t w :
  (forall s, ok s = true) -> fst (Registry.we_init_md_meth ok sz t w) = 1.
Proof. intros Hok. reg_unfold. rewrite !Hok. reg_simpl. reflexivity. Qed.

(** X8.  After a successful registration the global of the algorithm points
    at a freshly allocated record that carries the algorithm's NID, its
    initialiser, the shared update, final and cleanup, its digest size and
    [sizeof(we_Digest)]. *)
Theorem registration_success_record ok sz t w :
  fst (Registry.we_init_md_meth ok sz t w) = 1 ->
  let w' := snd (Registry.we_init_md_meth ok sz t w) in
  Registry.md_global w' t = Some (Registry.next_ptr w) /\
  Registry.heap_lookup (Registry.next_ptr w) (Registry.heap w') = Some (generic_record t sz) /\
  Registry.next_ptr w' = S (Registry.next_ptr w).
Proof.
  pose proof (we_init_md_meth_cases ok sz t w) as C.
  pose proof (we_init_md_meth_frame ok sz t w) as F.
  destruct (Registry.we_init_md_meth ok sz t w) as [r w']. cbn. intros ->.
  destruct (ok Registry.S_meth_new) eqn:E0.
  - destruct C as [_ C]. destruct (C eq_refl) as [G [[_ L] | [Hc _]]]; [|discriminate].
    destruct F as [_ [_ N]]. split; [exact G|]. split; [exact L | exact N].
  - destruct C as [C _]. destruct (C eq_refl) as [Hc _]. discriminate.
Qed.

Lemma registration_success_record_witness :
  fst reg_sha3_224 = 1 /\
  Registry.md_global (snd reg_sha3_224) WC_HASH_TYPE_SHA3_224 = Some 0%nat /\
  Registry.heap_lookup 0 (Registry.heap (snd reg_sha3_224)) =
    Some (generic_record WC_HASH_TYPE_SHA3_224 100) /\
  Registry.next_ptr (snd reg_sha3_224) = 1%nat.
Proof.
  split; [vm_compute; reflexivity|].
  exact (registration_success_record ok_all 100 WC_HASH_TYPE_SHA3_224 Registry.empty_world
           (eq_refl : fst reg_sha3_224 = 1)).
Defined.

(** X9.  Registering the same algorithm twice leaks the first record: the
    global is overwritten with the second record while the first one stays
    allocated, complete, and no longer reachable through the global. *)
Theorem reregistration_leaks_first_record ok sz t w :
  (forall s, ok s = true) ->
  let w1 := snd (Registry.we_init_md_meth ok sz t w) in
  let w2 := snd (Registry.we_init_md_meth ok sz t w1) in
  Registry.md_global w2 t = Some (S (Registry.next_ptr w)) /\
  Registry.heap_lookup (Registry.next_ptr w) (Registry.heap w2) = Some (generic_record t sz).
Proof.
  intros Hok. cbv zeta.
  pose proof (we_init_md_meth_all_ok ok sz t w Hok) as R1.
  pose proof (we_init_md_meth_cases ok sz t w) as C1.
  pose proof (we_init_md_meth_frame ok sz t w) as F1.
  destruct (Registry.we_init_md_meth ok sz t w) as [r1 w1]. cbn in R1 |- *. subst r1.
  destruct C1 as [_ C1]. destruct (C1 (Hok _)) as [G1 [[_ L1] | [Hc _]]]; [|discriminate].
  destruct F1 as [_ [_ N1]]. rewrite Hok in N1.
  pose proof (we_init_md_meth_cases ok sz t w1) as C2.
  pose proof (we_init_md_meth_frame ok sz t w1) as F2.
  destruct (Registry.we_init_md_meth ok sz t w1) as [r2 w2]. cbn.
  destruct C2 as [_ C2]. destruct (C2 (Hok _)) as [G2 _].
  destruct F2 as [_ [H2 _]].
  split; [rewrite G2, N1; reflexivity|].
  rewrite H2 by (rewrite N1; lia). exact L1.
Qed.

Lemma reregistration_leaks_first_record_witness :
  (forall s, ok_all s = true) /\
  Registry.md_global
    (snd (Registry.we_init_md_meth ok_all 100 WC_HASH_TYPE_SHA256
       (snd (Registry.we_init_md_meth ok_all 100 WC_HASH_TYPE_SHA256 Registry.empty_world))))
    WC_HASH_TYPE_SHA256 = Some 1%nat /\
  Registry.heap_lookup 0
    (Registry.heap (snd (Registry.we_init_md_meth ok_all 100 WC_HASH_TYPE_SHA256
       (snd (Registry.we_init_md_meth ok_all 100 WC_HASH_TYPE_SHA256 Registry.empty_world))))) =
    Some (generic_record WC_HASH_TYPE_SHA256 100).
Proof.
  split; [intros s; destruct s; reflexivity|].
  apply (reregistration_leaks_first_record ok_all 100 WC_HASH_TYPE_SHA256 Registry.empty_world).
  intros s; destruct s; reflexivity.
Defined.

(** X10.  When [EVP_MD_meth_new] fails, [we_init_*_meth] returns 0 having
    only set its global to NULL: no record is allocated or freed and no
    setter is called. *)
Theorem allocation_failure_only_nulls_global ok sz t w :
  ok Registry.S_meth_new = false ->
  Registry.we_init_md_meth ok sz t w = (0, Registry.set_global t None w).
Proof.
  intros E0. reg_unfold. rewrite E0. reg_simpl. reflexivity.
Qed.

Lemma allocation_failure_only_nulls_global_witness :
  ok_none Registry.S_meth_new = false /\
  Registry.we_init_sha512_meth ok_none 100 (snd reg_sha3_224) =
    (0, Registry.set_global WC_HASH_TYPE_SHA512 None (snd reg_sha3_224)).
Proof.
  split; [reflexivity|].
  apply allocation_failure_only_nulls_global. reflexivity.
Defined.

Lemma direct_heap_lookup_remove p h :
  DirectRegistry.heap_lookup p (DirectRegistry.heap_remove p h) = None.
Proof.
  induction h as [|[k r] h IH]; cbn; [reflexivity|].
  destruct (Nat.eqb p k) eqn:E; [exact IH|]. cbn. rewrite E. exact IH.
Qed.

Ltac direct_unfold :=
  unfold DirectRegistry.we_init_sha256_meth, DirectRegistry.EVP_MD_meth_new,
    DirectRegistry.EVP_MD_meth_set_init, DirectRegistry.EVP_MD_meth_set_update,
    DirectRegistry.EVP_MD_meth_set_final, DirectRegistry.EVP_MD_meth_set_cleanup,
    DirectRegistry.EVP_MD_meth_set_result_size,
    DirectRegistry.EVP_MD_meth_set_app_datasize, DirectRegistry.meth_set,
    DirectRegistry.EVP_MD_meth_free.

(** X11.  The fixed-function [we_init_sha256_meth] returns 1 exactly when
    every OpenSSL step succeeds, and then [we_sha256_md] points at a fresh
    record bound to the four [wc_Sha256] wrappers, the SHA-256 digest size
    and [sizeof(wc_Sha256)]. *)
Theorem direct_registration_result ok sz w :
  let '(ret, w') := DirectRegistry.we_init_sha256_meth ok sz w in
  (ret = 1 <-> forall s, ok s = true) /\
  (ret = 1 ->
   DirectRegistry.we_sha256_md w' = Some (DirectRegistry.next_ptr w) /\
   DirectRegistry.heap_lookup (DirectRegistry.next_ptr w) (DirectRegistry.heap w') =
     Some (direct_record sz)).
Proof.
  direct_unfold. destruct_steps ok; reg_simpl;
    (split; [split; intro HH; solve_all_ok ok
            | intros Hr; first [discriminate | split; reflexivity]]).
Qed.

Lemma direct_registration_result_witness :
  DirectRegistry.we_init_sha256_meth ok_all 104 DirectRegistry.empty_world =
    (1, DirectRegistry.mk_RegWorld [(0%nat, direct_record 104)] 1 (Some 0%nat)).
Proof.
  pose proof (direct_registration_result ok_all 104 DirectRegistry.empty_world) as H.
  vm_compute in H. vm_compute. reflexivity.
Defined.

(** X12.  When a setter of the fixed-function [we_init_sha256_meth] fails
    after a successful allocation, it returns 0 and frees the record but
    leaves [we_sha256_md] pointing at the freed record. *)
Theorem direct_setter_failure_dangles ok sz w :
  ok Registry.S_meth_new = true ->
  fst (DirectRegistry.we_init_sha256_meth ok sz w) <> 1 ->
  let w' := snd (DirectRegistry.we_init_sha256_meth ok sz w) in
  fst (DirectRegistry.we_init_sha256_meth ok sz w) = 0 /\
  DirectRegistry.we_sha256_md w' = Some (DirectRegistry.next_ptr w) /\
  DirectRegistry.heap_lookup (DirectRegistry.next_ptr w) (DirectRegistry.heap w') = None.
Proof.
  intros H0. direct_unfold. destruct_steps ok; reg_simpl; intros Hr;
    first [ discriminate
          | exfalso; apply Hr; reflexivity
          | split; [reflexivity|]; split; [reflexivity | apply direct_heap_lookup_remove] ].
Qed.

Lemma direct_setter_failure_dangles_witness :
  fst (DirectRegistry.we_init_sha256_meth ok_set_init_fails 104 DirectRegistry.empty_world) = 0 /\
  DirectRegistry.we_sha256_md
    (snd (DirectRegistry.we_init_sha256_meth ok_set_init_fails 104 DirectRegistry.empty_world))
    = Some 0%nat /\
  DirectRegistry.heap_lookup 0
    (DirectRegistry.heap
       (snd (DirectRegistry.we_init_sha256_meth ok_set_init_fails 104 DirectRegistry.empty_world)))
    = None.
Proof.
  apply (direct_setter_failure_dangles ok_set_init_fails 104 DirectRegistry.empty_world);
    [reflexivity | vm_compute; discriminate].
Defined.

(** X13.  The adapter keeps no error state between updates: whatever the
    engine reports, every chunk reaches [wc_HashUpdate] with the session's
    type and the [(word32)] length, each returns 0 or 1, and the context
    stays present with its type and output buffer unchanged. *)
Theorem updates_reach_engine_after_failures {S} (prim : wc_HashType -> HashPrim S)
  chunks (w : World (Generic.we_Digest S)) d :
  md_data w = Some d ->
  exists rs w',
    Generic.run_updates prim chunks w = Some (rs, w') /\
    length rs = length chunks /\ Forall (fun r => r = 0 \/ r = 1) rs /\
    md_out w' = md_out w /\
    (exists h, md_data w' = Some (Generic.mk_we_Digest h (Generic.hashType d))) /\
    calls w' = calls w ++
      map (fun c => C_HashUpdate (Generic.hashType d) (fst c) (word32_of (snd c))) chunks.
Proof.
  revert w d. induction chunks as [|[data len] cs IH]; intros w d Hd.
  - exists [], w. cbn. rewrite app_nil_r. repeat split; [constructor|].
    exists (Generic.hash d). rewrite Hd. destruct d; reflexivity.
  - cbn [Generic.run_updates]. unfold mbind at 1.
    rewrite (we_digest_update_eq _ w d data len Hd).
    destruct (hp_update _ _ _ _) as [st h] eqn:Eu.
    set (w1 := mk_World _ _ _).
    destruct (IH w1 (Generic.mk_we_Digest h (Generic.hashType d)) eq_refl)
      as (rs & w' & Hrun & Hlen & Hall & Hout & Hdata & Hcalls).
    unfold mbind. rewrite Hrun. cbn.
    exists (status_to_ret st :: rs), w'. split; [reflexivity|].
    split; [cbn; rewrite Hlen; reflexivity|].
    split; [constructor; [unfold status_to_ret; destruct (Z.eqb st 0); auto | exact Hall]|].
    split; [exact Hout|]. split; [exact Hdata|].
    rewrite Hcalls. cbn. rewrite <- app_assoc. reflexivity.
Qed.

Lemma updates_reach_engine_after_failures_witness :
  md_data w0 = Some d0 /\
  exists rs w',
    Generic.run_updates prim_fail [([Byte.x61], 1); ([Byte.x62], 1)] w0 = Some (rs, w') /\
    length rs = 2%nat /\ Forall (fun r => r = 0 \/ r = 1) rs /\
    md_out w' = md_out w0 /\
    (exists h, md_data w' = Some (Generic.mk_we_Digest h WC_HASH_TYPE_SHA384)) /\
    calls w' = [C_HashUpdate WC_HASH_TYPE_SHA384 [Byte.x61] 1;
                C_HashUpdate WC_HASH_TYPE_SHA384 [Byte.x62] 1].
Proof.
  split; [reflexivity|].
  exact (updates_reach_engine_after_failures prim_fail [([Byte.x61], 1); ([Byte.x62], 1)]
           w0 d0 eq_refl).
Defined.
